(** * Console support-agent system: model of [main.py] and its properties

    The development follows the layout of the Python module:
    text primitives of the Python runtime ([str.lower], [str.strip],
    [in], the [re] operations the module uses), the context model
    [SupportContext], the guardrail [guard_output], the tools, the agents,
    [run_with_context] and the command-line loop.

    Characters are the code points below 256 (Rocq's [ascii]); on them
    [str.lower], [str.isspace] and the regular-expression class [\w] are
    the ones of Python 3 for the Latin-1 block. *)

From Stdlib Require Import List Ascii String Bool Arith NArith Lia.
Import ListNotations.

Local Open Scope string_scope.
Local Open Scope list_scope.

(* ================================================================== *)
(** * Python text primitives *)
(* ================================================================== *)

(** A Python [str]: a sequence of code points. *)
Definition str : Type := list ascii.

(** String literals of the source are written as Rocq string literals. *)
Coercion list_ascii_of_string : string >-> list.

Module Py.

Definition code (c : ascii) : N := N_of_ascii c.

Definition between (lo hi : N) (c : ascii) : bool :=
  ((lo <=? code c) && (code c <=? hi))%N.

(** Upper-case letters of the Latin-1 block: [A-Z], [À-Ö], [Ø-Þ]. *)
Definition isupper (c : ascii) : bool :=
  between 65 90 c || between 192 214 c || between 216 222 c.

(** [str.lower] on one character: upper-case letters move 32 places up. *)
Definition lower_char (c : ascii) : ascii :=
  if isupper c then ascii_of_N (code c + 32) else c.

(** [str.lower]. *)
Definition lower (s : str) : str := map lower_char s.

(** [str.isspace] on one character: tab to carriage return, the
    separators 0x1c-0x1f, space, NEL and the no-break space. *)
Definition isspace (c : ascii) : bool :=
  between 9 13 c || between 28 32 c || between 133 133 c
  || between 160 160 c.

(** [str.lstrip], [str.rstrip] and [str.strip] without argument. *)
Fixpoint lstrip (s : str) : str :=
  match s with
  | c :: s' => if isspace c then lstrip s' else s
  | [] => []
  end.

Definition rstrip (s : str) : str := rev (lstrip (rev s)).

Definition strip (s : str) : str := rstrip (lstrip s).

(** [s == t] on strings. *)
Fixpoint str_eqb (s t : str) : bool :=
  match s, t with
  | [], [] => true
  | a :: s', b :: t' => Ascii.eqb a b && str_eqb s' t'
  | _, _ => false
  end.

(** [t.startswith(w)]. *)
Fixpoint startswith (w t : str) : bool :=
  match w, t with
  | [], _ => true
  | a :: w', b :: t' => Ascii.eqb a b && startswith w' t'
  | _ :: _, [] => false
  end.

(** [w in t]: [w] occurs in [t] as a contiguous substring. *)
Fixpoint contains (w t : str) : bool :=
  startswith w t ||
  match t with
  | [] => false
  | _ :: t' => contains w t'
  end.

(** [x in {a, b, ...}] for a set display of strings. *)
Definition mem (x : str) (xs : list str) : bool := existsb (str_eqb x) xs.

(** [any(w in t for w in ws)]. *)
Definition any_in (ws : list str) (t : str) : bool :=
  existsb (fun w => contains w t) ws.

(** Truth value of a string: the empty string is falsy. *)
Definition truthy (s : str) : bool :=
  match s with [] => false | _ :: _ => true end.

(** The regular-expression class [\w]: [A-Za-z0-9_] and, above 127, the
    alphanumeric code points of the Latin-1 block (letters, the ordinal
    indicators, the micro sign, superscript digits and vulgar
    fractions). *)
Definition is_word (c : ascii) : bool :=
  between 48 57 c || between 65 90 c || between 95 95 c || between 97 122 c
  || between 170 170 c || between 178 179 c || between 181 181 c
  || between 185 186 c || between 188 190 c
  || between 192 214 c || between 216 246 c || between 248 255 c.

End Py.

(** What it means, as a proposition, for [w] to occur in [t]. *)
Definition occurs_in (w t : str) : Prop :=
  exists pre post : str, t = pre ++ w ++ post.

(* ================================================================== *)
(** * Tools: the classifier *)
(* ================================================================== *)

(** [classify_issue] (the body under the [function_tool] decorator). *)
Definition classify_issue (user_text : str) : str :=
  let t := Py.lower user_text in
  if Py.any_in ["refund" : str; "invoice" : str; "bill" : str; "payment" : str] t
  then "billing"
  else if Py.any_in ["error" : str; "crash" : str; "down" : str;
                     "restart" : str; "bug" : str; "technical" : str] t
  then "technical"
  else "general".

(* ================================================================== *)
(** * The [re] operations of the module *)
(* ================================================================== *)

Module Re.

(** A position of the scan is given by the character before it, if any,
    and the text from it on. *)
Definition word_before (prev : option ascii) : bool :=
  match prev with Some c => Py.is_word c | None => false end.

Definition word_here (text : str) : bool :=
  match text with c :: _ => Py.is_word c | [] => false end.

(** [\b]: exactly one side of the position is a word character. *)
Definition at_boundary (prev : option ascii) (text : str) : bool :=
  xorb (word_before prev) (word_here text).

(** A literal under [re.IGNORECASE]: a subject character matches the
    (lower-case) pattern character when its lower-case form is that
    character.  On success the position after the literal is returned. *)
Fixpoint literal_ci (lit : str) (prev : option ascii) (text : str)
  : option (option ascii * str) :=
  match lit with
  | [] => Some (prev, text)
  | l :: lit' =>
    match text with
    | c :: text' =>
      if Ascii.eqb (Py.lower_char c) l then literal_ci lit' (Some c) text'
      else None
    | [] => None
    end
  end.

(** [\w*\b]: the star is greedy, it first takes one more word character
    and tries the rest of the pattern, and gives the character back when
    that fails.  The result is the number of characters taken. *)
Fixpoint wstar_then_boundary (prev : option ascii) (text : str) : option nat :=
  match text with
  | c :: text' =>
    if Py.is_word c then
      match wstar_then_boundary (Some c) text' with
      | Some n => Some (S n)
      | None => if at_boundary prev text then Some 0 else None
      end
    else if at_boundary prev text then Some 0 else None
  | [] => if at_boundary prev text then Some 0 else None
  end.

(** First branch of the group followed by the closing [\b]:
    [sorry\b]. *)
Definition alt_sorry (prev : option ascii) (text : str) : option nat :=
  match literal_ci "sorry" prev text with
  | Some (prev', text') => if at_boundary prev' text' then Some 5 else None
  | None => None
  end.

(** Second branch followed by the closing [\b]: [apologiz\w*\b]. *)
Definition alt_apologiz (prev : option ascii) (text : str) : option nat :=
  match literal_ci "apologiz" prev text with
  | Some (prev', text') =>
    match wstar_then_boundary prev' text' with
    | Some n => Some (8 + n)
    | None => None
    end
  | None => None
  end.

(** [BANNED_PHRASES], the compiled pattern: a word boundary, the group
    of the two branches above, a word boundary, under [re.IGNORECASE];
    tried at one position: the length of the match, if there is one.  The
    branches of the group are tried in order. *)
Definition BANNED_PHRASES (prev : option ascii) (text : str) : option nat :=
  if at_boundary prev text then
    match alt_sorry prev text with
    | Some n => Some n
    | None => alt_apologiz prev text
    end
  else None.

(** [pattern.sub(repl, text)]: the text is scanned from the left; where
    the pattern matches, [repl] is written and the scan goes on after the
    match; elsewhere the character is copied.  [pending] counts the
    characters of the current match that are still to be passed over.  A
    match of no character writes [repl] and copies the character, as the
    library does; [BANNED_PHRASES] has no such match. *)
Fixpoint sub_scan (pattern : option ascii -> str -> option nat) (repl : str)
    (prev : option ascii) (pending : nat) (text : str) : str :=
  match text with
  | [] => []
  | c :: text' =>
    match pending with
    | S k => sub_scan pattern repl (Some c) k text'
    | O =>
      match pattern prev text with
      | Some (S k) => repl ++ sub_scan pattern repl (Some c) k text'
      | Some O => repl ++ c :: sub_scan pattern repl (Some c) 0 text'
      | None => c :: sub_scan pattern repl (Some c) 0 text'
      end
    end
  end.

Definition sub (pattern : option ascii -> str -> option nat) (repl text : str)
  : str :=
  sub_scan pattern repl None 0 text.

(** [re.search(pattern, text, re.I)] for a pattern that is an
    alternation of literals, as a truth value: some position of the text
    starts one of the literals. *)
Definition alts_ci_here (alts : list str) (prev : option ascii) (text : str)
  : bool :=
  existsb (fun lit =>
             match literal_ci lit prev text with
             | Some _ => true
             | None => false
             end) alts.

Fixpoint search_from (alts : list str) (prev : option ascii) (text : str)
  : bool :=
  alts_ci_here alts prev text ||
  match text with
  | [] => false
  | c :: text' => search_from alts (Some c) text'
  end.

Definition search_alts_ci (alts : list str) (text : str) : bool :=
  search_from alts None text.

End Re.

(* ================================================================== *)
(** * Guardrail *)
(* ================================================================== *)

(** [guard_output]: a falsy text (the empty string) is returned as it is. *)
Definition guard_output (text : str) : str :=
  if negb (Py.truthy text) then text
  else Re.sub Re.BANNED_PHRASES "(removed)" text.

(** [final_output] of a run result may be [None], which is falsy as
    well. *)
Definition guard_final_output (text : option str) : option str :=
  match text with
  | None => None
  | Some s => Some (guard_output s)
  end.

(* ================================================================== *)
(** * Context model *)
(* ================================================================== *)

(** Values of the [extra] bag ([Dict[str, Any]]). *)
Inductive Any : Type :=
| AnyNone
| AnyBool (b : bool)
| AnyInt (n : N)
| AnyStr (s : str).

(** [class SupportContext(BaseModel)]. *)
Record SupportContext : Type := mkSupportContext {
  name : str;
  is_premium_user : bool;
  issue_type : option str;
  last_agent : option str;
  extra : list (str * Any)
}.

(** [SupportContext()]: the field defaults. *)
Definition SupportContext_default : SupportContext :=
  {| name := "Guest"; is_premium_user := false; issue_type := None;
     last_agent := None; extra := [] |}.

(** Attribute assignments [ctx.field = v]. *)
Definition set_name (v : str) (ctx : SupportContext) : SupportContext :=
  {| name := v; is_premium_user := is_premium_user ctx;
     issue_type := issue_type ctx; last_agent := last_agent ctx;
     extra := extra ctx |}.

Definition set_is_premium_user (v : bool) (ctx : SupportContext)
  : SupportContext :=
  {| name := name ctx; is_premium_user := v;
     issue_type := issue_type ctx; last_agent := last_agent ctx;
     extra := extra ctx |}.

Definition set_issue_type (v : option str) (ctx : SupportContext)
  : SupportContext :=
  {| name := name ctx; is_premium_user := is_premium_user ctx;
     issue_type := v; last_agent := last_agent ctx;
     extra := extra ctx |}.

Definition set_last_agent (v : option str) (ctx : SupportContext)
  : SupportContext :=
  {| name := name ctx; is_premium_user := is_premium_user ctx;
     issue_type := issue_type ctx; last_agent := v;
     extra := extra ctx |}.

(** [x == s] for an optional string [x]: [None] equals no string. *)
Definition opt_str_eqb (x : option str) (s : str) : bool :=
  match x with
  | Some y => Py.str_eqb y s
  | None => false
  end.

(* ================================================================== *)
(** * Tools reading the context *)
(* ================================================================== *)

(** The tools read the module-level context [CTX]; it is their first
    argument here. *)

Definition get_invoice (CTX : SupportContext) (dummy : str) : str :=
  let who := name CTX in
  let tier : str := if is_premium_user CTX then "Premium" else "Free" in
  "Invoice for " ++ who ++ ": Plan=" ++ tier
    ++ ", Last payment: 2025-08-01, Amount: $19.00".

(** [refund.is_enabled = lambda ctx: bool(ctx.is_premium_user)]. *)
Definition refund_is_enabled (ctx : SupportContext) : bool :=
  is_premium_user ctx.

Definition refund (CTX : SupportContext) (dummy : str) : str :=
  if negb (refund_is_enabled CTX)
  then "Refund tool disabled: premium membership required."
  else "Refund initiated for " ++ name CTX
         ++ ". You will receive confirmation via email.".

(** [restart_service.is_enabled = lambda ctx: (ctx.issue_type == 'technical')]. *)
Definition restart_service_is_enabled (ctx : SupportContext) : bool :=
  opt_str_eqb (issue_type ctx) "technical".

Definition restart_service (CTX : SupportContext) (dummy : str) : str :=
  if negb (restart_service_is_enabled CTX)
  then "Restart tool disabled: this request is not a technical issue."
  else "Service restart command sent. Please wait ~2 minutes and try again.".



(* ================================================================== *)
(** * Agents *)
(* ================================================================== *)

Inductive Tool : Type :=
| tool_classify_issue
| tool_get_invoice
| tool_refund
| tool_restart_service
| tool_check_service_status
| tool_general_faq.

Inductive Agent : Type :=
| triage_agent
| billing_agent
| technical_agent
| general_agent.

Definition agent_name (a : Agent) : str :=
  match a with
  | triage_agent => "Triage Agent"
  | billing_agent => "Billing Agent"
  | technical_agent => "Technical Support Agent"
  | general_agent => "General Info Agent"
  end.

Definition agent_tools (a : Agent) : list Tool :=
  match a with
  | triage_agent => [tool_classify_issue]
  | billing_agent => [tool_get_invoice; tool_refund]
  | technical_agent => [tool_restart_service; tool_check_service_status]
  | general_agent => [tool_general_faq]
  end.

(* ================================================================== *)
(** * Running an agent, and the command-line loop *)
(* ================================================================== *)

(** What the program does that can be observed from outside: it calls the
    agent runtime and it writes to the console.  A call records the agent,
    the text and the copy of the context ([CTX.dict()]) it was given. *)
Inductive Event : Type :=
| Runner_called (agent : Agent) (text : str) (context : SupportContext)
| Print_banner
| Print_instructions
| Prompt (text : str)
| Print_handoff (issue_type : str)
| Print_answer (issue_type : option str) (final_output : option str)
| Print_goodbye.

(** How the program ends: the loop was left with [break], or [input]
    found the end of the input and raised. *)
Inductive Outcome : Type :=
| Finished
| EOFError.

Section Program.

(** The agent runtime is a collaborator outside the module.  [Runner_run]
    is given the agent, the text and the copy of the context, and yields
    the [final_output] of its result ([None] when it has none); [Backend]
    is whatever state the runtime keeps between calls. *)
Variable Backend : Type.
Variable Runner_run :
  Backend -> Agent -> str -> SupportContext -> option str * Backend.

(** The state the program runs in: the module-level [CTX] and the
    runtime. *)
Record World : Type := mkWorld {
  CTX : SupportContext;
  backend : Backend
}.

(** Commands: they read and change the world and write events. *)
Definition Cmd (A : Type) : Type := World -> A * World * list Event.

Definition ret {A : Type} (a : A) : Cmd A := fun w => (a, w, []).

Definition bind {A B : Type} (c : Cmd A) (k : A -> Cmd B) : Cmd B :=
  fun w =>
    let '(a, w1, ev1) := c w in
    let '(b, w2, ev2) := k a w1 in
    (b, w2, ev1 ++ ev2).

Notation "x <- c ;; k" := (bind c (fun x => k))
  (at level 61, c at next level, right associativity).
Notation "c ;; k" := (bind c (fun _ => k))
  (at level 61, right associativity).

Definition read_CTX : Cmd SupportContext := fun w => (CTX w, w, []).

Definition update_CTX (f : SupportContext -> SupportContext) : Cmd unit :=
  fun w => (tt, {| CTX := f (CTX w); backend := backend w |}, []).

Definition emit (e : Event) : Cmd unit := fun w => (tt, w, [e]).

Definition call_Runner (agent : Agent) (text : str) : Cmd (option str) :=
  fun w =>
    let '(out, b) := Runner_run (backend w) agent text (CTX w) in
    (out, {| CTX := CTX w; backend := b |},
     [Runner_called agent text (CTX w)]).

(** [run_with_context]: the result of the run with its [final_output]
    passed through the guardrail. *)
Definition run_with_context (agent : Agent) (text : str) : Cmd (option str) :=
  final_output <- call_Runner agent text ;;
  ret (guard_final_output final_output).

(** [x or y] on an optional string. *)
Definition or_str (x : option str) (y : str) : str :=
  match x with
  | Some s => if Py.truthy s then s else y
  | None => y
  end.

(** The label read off the output of the triage run: the output, or the
    empty string for none, stripped and lower-cased, and [general] when
    that is not one of the three labels. *)
Definition triage_label (final_output : option str) : str :=
  let issue_type0 := Py.lower (Py.strip (or_str final_output "")) in
  if negb (Py.mem issue_type0
             ["billing" : str; "technical" : str; "general" : str])
  then "general" else issue_type0.

(** Step 1 of a turn, TRIAGE.  The label that was written to the context
    is returned. *)
Definition triage (user_text : str) : Cmd str :=
  triage_res <- run_with_context triage_agent user_text ;;
  let issue_type1 := triage_label triage_res in
  update_CTX (set_issue_type (Some issue_type1)) ;;
  update_CTX (set_last_agent (Some ("triage" : str))) ;;
  emit (Print_handoff issue_type1) ;;
  ret issue_type1.

(** Step 2, ROUTE / HANDOFF: the agent and the text it is run on. *)
Definition route (issue_type1 user_text : str) : Agent * str :=
  if Py.str_eqb issue_type1 "billing" then
    let hint : str :=
      if Re.search_alts_ci
           ["refund" : str; "chargeback" : str; "money back" : str] user_text
      then "refund" else "invoice" in
    (billing_agent, hint)
  else if Py.str_eqb issue_type1 "technical" then
    let hint : str :=
      if Re.search_alts_ci
           ["restart" : str; "crash" : str; "down" : str; "error" : str]
           user_text
      then "restart" else "status" in
    (technical_agent, hint)
  else (general_agent, user_text).

Definition handoff (issue_type1 user_text : str) : Cmd (option str) :=
  let '(agent, text) := route issue_type1 user_text in
  run_with_context agent text.

(** Steps 3 and 4: the answer is printed under the label in the context,
    then the label moves to [last_agent] and [issue_type] is cleared. *)
Definition output (res : option str) : Cmd unit :=
  ctx <- read_CTX ;;
  emit (Print_answer (issue_type ctx) res).

Definition loop_status : Cmd unit :=
  ctx <- read_CTX ;;
  update_CTX (set_last_agent (issue_type ctx)) ;;
  update_CTX (set_issue_type None).

(** One pass through the body of the loop after the exit test. *)
Definition turn (user_text : str) : Cmd unit :=
  issue_type1 <- triage user_text ;;
  res <- handoff issue_type1 user_text ;;
  output res ;;
  loop_status.

(** The exit test of the loop. *)
Definition is_exit (user_text : str) : bool :=
  Py.mem (Py.lower user_text) ["exit" : str; "quit" : str].

(** One iteration of [while True] on the line that [input] returned:
    [true] when the loop is left. *)
Definition iteration (line : str) : Cmd bool :=
  emit (Prompt "You: ") ;;
  let user_text := Py.strip line in
  if is_exit user_text then
    emit Print_goodbye ;; ret true
  else
    turn user_text ;; ret false.

(** The loop over the lines of the standard input. *)
Fixpoint session_loop (stdin : list str) : Cmd Outcome :=
  match stdin with
  | [] => emit (Prompt "You: ") ;; ret EOFError
  | line :: stdin' =>
    stop <- iteration line ;;
    if stop then ret Finished else session_loop stdin'
  end.

(** The program under [if __name__ == '__main__']. *)
Definition main (stdin : list str) : Cmd Outcome :=
  emit Print_banner ;;
  emit (Prompt "Your name: ") ;;
  match stdin with
  | [] => ret EOFError
  | line1 :: stdin1 =>
    let name1 := or_str (Some (Py.strip line1)) "Guest" in
    emit (Prompt "Are you a premium user? (y/n): ") ;;
    match stdin1 with
    | [] => ret EOFError
    | line2 :: stdin2 =>
      let premium := Py.startswith "y" (Py.lower (Py.strip line2)) in
      update_CTX (set_name name1) ;;
      update_CTX (set_is_premium_user premium) ;;
      emit Print_instructions ;;
      session_loop stdin2
    end
  end.

End Program.

Arguments CTX {Backend}.
Arguments backend {Backend}.
Arguments mkWorld {Backend}.
Arguments ret {Backend A}.
Arguments bind {Backend A B}.
Arguments read_CTX {Backend}.
Arguments update_CTX {Backend}.
Arguments emit {Backend}.
Arguments call_Runner {Backend}.
Arguments run_with_context {Backend}.
Arguments triage {Backend}.
Arguments handoff {Backend}.
Arguments output {Backend}.
Arguments loop_status {Backend}.
Arguments turn {Backend}.
Arguments iteration {Backend}.
Arguments session_loop {Backend}.
Arguments main {Backend}.

(* ================================================================== *)
(** * Specification vocabulary *)
(* ================================================================== *)

(** Some word of [ws] occurs in [t]. *)
Definition mentions (ws : list str) (t : str) : Prop :=
  exists w : str, In w ws /\ occurs_in w t.

(** Some stretch of [text] is, up to the case of its letters, one of
    [alts]. *)
Definition matches_ci (alts : list str) (text : str) : Prop :=
  exists pre m post : str,
    text = pre ++ m ++ post /\ In (Py.lower m) alts.

(** The longest prefix of a text made of word characters, and the text
    that follows it. *)
Fixpoint leading_word (t : str) : str :=
  match t with
  | c :: t' => if Py.is_word c then c :: leading_word t' else []
  | [] => []
  end.

Fixpoint after_word (t : str) : str :=
  match t with
  | c :: t' => if Py.is_word c then after_word t' else t
  | [] => []
  end.

(** Every character of the text is a word character. *)
Definition all_word (t : str) : bool := forallb Py.is_word t.

(** The words of a text: its maximal runs of word characters, from left
    to right.  [cur] holds the characters of the run being read, last
    first. *)
Fixpoint words_from (cur : str) (t : str) : list str :=
  match t with
  | [] => match cur with [] => [] | _ :: _ => [rev cur] end
  | c :: t' =>
    if Py.is_word c then words_from (c :: cur) t'
    else match cur with
         | [] => words_from [] t'
         | _ :: _ => rev cur :: words_from [] t'
         end
  end.

Definition words (t : str) : list str := words_from [] t.

(** A word that is, whatever the case of its letters, [sorry] or a word
    beginning with [apolog]. *)
Definition apology_word (w : str) : bool :=
  Py.str_eqb (Py.lower w) "sorry" || Py.startswith "apolog" (Py.lower w).

(** A word the pattern is written for: [sorry], or a word beginning with
    [apologiz], whatever the case of its letters. *)
Definition pattern_word (w : str) : bool :=
  Py.str_eqb (Py.lower w) "sorry" || Py.startswith "apologiz" (Py.lower w).

Definition has_apology_word (t : str) : bool :=
  existsb apology_word (words t).

(** The scan of [guard_output] from a position inside the text. *)
Definition guard_scan (prev : option ascii) (t : str) : str :=
  Re.sub_scan Re.BANNED_PHRASES "(removed)" prev 0 t.

(** The three parts of the result of a command. *)
Definition value_of {A W : Type} (r : A * W * list Event) : A := fst (fst r).
Definition world_of {A W : Type} (r : A * W * list Event) : W := snd (fst r).
Definition events_of {A W : Type} (r : A * W * list Event) : list Event :=
  snd r.

(** The three labels. *)
Definition labels : list str :=
  ["billing" : str; "technical" : str; "general" : str].

(** An event that is a call of the agent runtime. *)
Definition is_Runner_called (e : Event) : bool :=
  match e with
  | Runner_called _ _ _ => true
  | _ => false
  end.

(** The lines of the input the loop reads: those up to the first line that
    passes the exit test, that line included. *)
Fixpoint until_exit (stdin : list str) : list str :=
  match stdin with
  | [] => []
  | line :: stdin' =>
    if is_exit (Py.strip line) then [line] else line :: until_exit stdin'
  end.

(** The number of lines before the first line that passes the exit
    test. *)
Fixpoint turns_before_exit (stdin : list str) : nat :=
  match stdin with
  | [] => 0
  | line :: stdin' =>
    if is_exit (Py.strip line) then 0 else S (turns_before_exit stdin')
  end.

(** A line written to the console that carries a label carries one of the
    three, and an answer that is shown holds no pattern word. *)
Definition clean_event (e : Event) : bool :=
  match e with
  | Print_handoff l => Py.mem l labels
  | Print_answer (Some l) (Some s) =>
    Py.mem l labels && negb (existsb pattern_word (words s))
  | Print_answer (Some l) None => Py.mem l labels
  | Print_answer None _ => false
  | _ => true
  end.

(** An event that is a prompt for a line of input. *)
Definition is_Prompt (e : Event) : bool :=
  match e with
  | Prompt _ => true
  | _ => false
  end.

(* ================================================================== *)
(** * Facts about the text primitives *)
(* ================================================================== *)

Lemma str_eqb_eq (s t : str) : Py.str_eqb s t = true <-> s = t.
Proof.
  revert t; induction s as [|a s IH]; intros [|b t]; simpl;
    try (split; [discriminate | discriminate]); try tauto.
  rewrite andb_true_iff, Ascii.eqb_eq, IH.
  split; [intros [-> ->]; reflexivity | intros H; inversion H; auto].
Qed.

Lemma str_eqb_refl (s : str) : Py.str_eqb s s = true.
Proof. apply str_eqb_eq; reflexivity. Qed.

Lemma startswith_spec (w t : str) :
  Py.startswith w t = true <-> exists post, t = w ++ post.
Proof.
  revert t; induction w as [|a w IH]; intros t; simpl.
  - split; [intros _; exists t; reflexivity | reflexivity].
  - destruct t as [|b t].
    + split; [discriminate | intros [post H]; discriminate].
    + rewrite andb_true_iff, Ascii.eqb_eq, IH. split.
      * intros [-> [post ->]]. exists post; reflexivity.
      * intros [post H]. inversion H; subst. split; [reflexivity|].
        exists post; reflexivity.
Qed.

Lemma contains_spec (w t : str) :
  Py.contains w t = true <-> occurs_in w t.
Proof.
  unfold occurs_in. induction t as [|b t IH].
  - simpl. rewrite orb_false_r, startswith_spec. split.
    + intros [post H]. exists [], post. exact H.
    + intros [pre [post H]]. destruct pre as [|p pre]; [|discriminate].
      exists post. exact H.
  - change (Py.contains w (b :: t))
      with (Py.startswith w (b :: t) || Py.contains w t).
    rewrite orb_true_iff, startswith_spec, IH. split.
    + intros [[post H] | [pre [post H]]].
      * exists [], post. exact H.
      * exists (b :: pre), post. simpl. rewrite H. reflexivity.
    + intros [pre [post H]]. destruct pre as [|p pre].
      * left. exists post. exact H.
      * right. simpl in H. inversion H; subst.
        exists pre, post. reflexivity.
Qed.

Lemma any_in_spec (ws : list str) (t : str) :
  Py.any_in ws t = true <-> mentions ws t.
Proof.
  unfold Py.any_in, mentions. rewrite existsb_exists.
  split; intros [w [Hin H]]; exists w; split; auto;
    apply contains_spec; exact H.
Qed.

Lemma any_in_false (ws : list str) (t : str) :
  Py.any_in ws t = false <-> ~ mentions ws t.
Proof.
  rewrite <- any_in_spec. destruct (Py.any_in ws t); split; intros H;
    try reflexivity; try discriminate; try (intros K; discriminate).
  exfalso; apply H; reflexivity.
Qed.

Lemma mem_spec (x : str) (xs : list str) : Py.mem x xs = true <-> In x xs.
Proof.
  unfold Py.mem. rewrite existsb_exists. split.
  - intros [y [Hin H]]. apply str_eqb_eq in H. subst. exact Hin.
  - intros H. exists x. split; [exact H | apply str_eqb_refl].
Qed.

(* ================================================================== *)
(** * The classifier *)
(* ================================================================== *)

(** C1.  [classify_issue] is a total function of its text whose value is
    one of the three labels: it is billing exactly when the lower-cased
    text mentions a billing word, technical exactly when it mentions no
    billing word but a technical one, and general exactly when it
    mentions neither; in particular a text with words of both kinds is
    billing. *)
Theorem classify_issue_spec (user_text : str) :
  let t := Py.lower user_text in
  let billing_words : list str :=
    ["refund" : str; "invoice" : str; "bill" : str; "payment" : str] in
  let technical_words : list str :=
    ["error" : str; "crash" : str; "down" : str; "restart" : str;
     "bug" : str; "technical" : str] in
  (classify_issue user_text = ("billing" : str)
   \/ classify_issue user_text = ("technical" : str)
   \/ classify_issue user_text = ("general" : str))
  /\ (classify_issue user_text = ("billing" : str)
      <-> mentions billing_words t)
  /\ (classify_issue user_text = ("technical" : str)
      <-> ~ mentions billing_words t /\ mentions technical_words t)
  /\ (classify_issue user_text = ("general" : str)
      <-> ~ mentions billing_words t /\ ~ mentions technical_words t)
  /\ (mentions billing_words t /\ mentions technical_words t
      -> classify_issue user_text = ("billing" : str)).
Proof.
  intros t billing_words technical_words.
  unfold classify_issue. fold t. fold billing_words. fold technical_words.
  destruct (Py.any_in billing_words t) eqn:Hb;
    [| destruct (Py.any_in technical_words t) eqn:Ht].
  - apply any_in_spec in Hb.
    repeat split; auto; try discriminate; try tauto.
  - apply any_in_false in Hb. apply any_in_spec in Ht.
    repeat split; auto; try discriminate; try tauto.
  - apply any_in_false in Hb. apply any_in_false in Ht.
    repeat split; auto; try discriminate; try tauto.
Qed.

(* ================================================================== *)
(** * The banned-phrases pattern *)
(* ================================================================== *)

Ltac each_char c :=
  destruct c as [[] [] [] [] [] [] [] []]; vm_compute; try reflexivity.

Lemma is_word_lower_char (c : ascii) :
  Py.is_word (Py.lower_char c) = Py.is_word c.
Proof. each_char c. Qed.

Lemma leading_after (t : str) : t = leading_word t ++ after_word t.
Proof.
  induction t as [|c t IH]; simpl; [reflexivity|].
  destruct (Py.is_word c); simpl; [f_equal; exact IH | reflexivity].
Qed.

Lemma all_word_leading (t : str) : all_word (leading_word t) = true.
Proof.
  induction t as [|c t IH]; simpl; [reflexivity|].
  destruct (Py.is_word c) eqn:E; simpl; [rewrite E; exact IH | reflexivity].
Qed.

Lemma word_here_after (t : str) : Re.word_here (after_word t) = false.
Proof.
  induction t as [|c t IH]; simpl; [reflexivity|].
  destruct (Py.is_word c) eqn:E; simpl; [exact IH | exact E].
Qed.

Lemma word_here_leading (t : str) :
  Re.word_here (leading_word t) = Re.word_here t.
Proof.
  destruct t as [|c t]; simpl; [reflexivity|].
  destruct (Py.is_word c) eqn:E; simpl; [exact E | reflexivity].
Qed.

Lemma leading_word_all (w : str) : all_word w = true -> leading_word w = w.
Proof.
  induction w as [|c w IH]; simpl; [reflexivity|].
  intros H. apply andb_true_iff in H. destruct H as [Hc Hw].
  rewrite Hc. f_equal. exact (IH Hw).
Qed.

Lemma leading_word_app (w t : str) :
  all_word w = true -> Re.word_here t = false -> leading_word (w ++ t) = w.
Proof.
  induction w as [|c w IH]; simpl; intros Hw Ht.
  - destruct t as [|d t]; simpl in *; [reflexivity | rewrite Ht; reflexivity].
  - apply andb_true_iff in Hw. destruct Hw as [Hc Hw].
    rewrite Hc. f_equal. exact (IH Hw Ht).
Qed.

Lemma word_here_app (w t : str) :
  all_word w = true -> Re.word_here t = false ->
  Re.word_here (w ++ t) = Re.word_here w.
Proof.
  destruct w as [|c w]; simpl; intros Hw Ht; [exact Ht | reflexivity].
Qed.

Lemma word_here_false_all (w : str) :
  all_word w = true -> Re.word_here w = false -> w = [].
Proof.
  destruct w as [|c w]; simpl; [reflexivity|].
  intros H K. rewrite K in H. discriminate.
Qed.

(** A literal made of word characters only looks at the leading word. *)
Lemma literal_ci_leading (lit : str) :
  all_word lit = true ->
  forall (prev : option ascii) (t : str),
    Re.literal_ci lit prev t =
    match Re.literal_ci lit prev (leading_word t) with
    | Some (prev', r) => Some (prev', r ++ after_word t)
    | None => None
    end.
Proof.
  induction lit as [|l lit IH]; intros Hlit prev t; simpl.
  - rewrite <- leading_after. reflexivity.
  - simpl in Hlit. apply andb_true_iff in Hlit. destruct Hlit as [Hl Hlit].
    destruct t as [|c t]; simpl; [reflexivity|].
    destruct (Py.is_word c) eqn:Hc; simpl.
    + destruct (Ascii.eqb (Py.lower_char c) l); [|reflexivity].
      apply IH. exact Hlit.
    + destruct (Ascii.eqb (Py.lower_char c) l) eqn:E; [|reflexivity].
      apply Ascii.eqb_eq in E. rewrite <- E, is_word_lower_char, Hc in Hl.
      discriminate.
Qed.

(** On a run of word characters a literal leaves a run of word
    characters, shorter by the length of the literal. *)
Lemma literal_ci_word (lit : str) :
  forall (prev prev' : option ascii) (w r : str),
    all_word w = true ->
    Re.literal_ci lit prev w = Some (prev', r) ->
    all_word r = true /\ List.length w = List.length lit + List.length r
    /\ (Re.word_before prev = true \/ lit <> [] -> Re.word_before prev' = true).
Proof.
  induction lit as [|l lit IH]; intros prev prev' w r Hw H; simpl in H.
  - inversion H; subst. repeat split; auto.
    intros [K | K]; [exact K | contradiction].
  - destruct w as [|c w]; [discriminate|].
    simpl in Hw. apply andb_true_iff in Hw. destruct Hw as [Hc Hw].
    destruct (Ascii.eqb (Py.lower_char c) l); [|discriminate].
    destruct (IH (Some c) prev' w r Hw H) as [Hr [Hlen Hp]].
    split; [exact Hr|]. split.
    + simpl. rewrite Hlen. reflexivity.
    + intros _. apply Hp. left. exact Hc.
Qed.

(** After a word character the greedy star takes the whole leading
    word. *)
Lemma wstar_takes_word (t : str) :
  forall prev : option ascii,
    Re.word_before prev = true ->
    Re.wstar_then_boundary prev t = Some (List.length (leading_word t)).
Proof.
  induction t as [|c t IH]; intros prev Hp; simpl.
  - unfold Re.at_boundary. rewrite Hp. reflexivity.
  - destruct (Py.is_word c) eqn:Hc.
    + rewrite (IH (Some c) Hc). reflexivity.
    + unfold Re.at_boundary. rewrite Hp. simpl. rewrite Hc. reflexivity.
Qed.

Lemma alt_sorry_leading (prev : option ascii) (t : str) :
  Re.alt_sorry prev t = Re.alt_sorry prev (leading_word t).
Proof.
  unfold Re.alt_sorry.
  rewrite (literal_ci_leading "sorry" eq_refl prev t).
  destruct (Re.literal_ci "sorry" prev (leading_word t)) as [[prev' r]|] eqn:E;
    [|reflexivity].
  destruct (literal_ci_word _ _ _ _ _ (all_word_leading t) E) as [Hr _].
  unfold Re.at_boundary.
  rewrite (word_here_app r _ Hr (word_here_after t)). reflexivity.
Qed.

Lemma alt_apologiz_leading (prev : option ascii) (t : str) :
  Re.alt_apologiz prev t = Re.alt_apologiz prev (leading_word t).
Proof.
  unfold Re.alt_apologiz.
  rewrite (literal_ci_leading "apologiz" eq_refl prev t).
  destruct (Re.literal_ci "apologiz" prev (leading_word t))
    as [[prev' r]|] eqn:E; [|reflexivity].
  destruct (literal_ci_word _ _ _ _ _ (all_word_leading t) E)
    as [Hr [_ Hp]].
  assert (Hp' : Re.word_before prev' = true)
    by (apply Hp; right; discriminate).
  rewrite !(wstar_takes_word _ _ Hp').
  rewrite (leading_word_app r _ Hr (word_here_after t)).
  rewrite (leading_word_all r Hr). reflexivity.
Qed.

(** Whether the pattern matches at a position is decided by the word
    that starts there. *)
Lemma BANNED_PHRASES_leading (prev : option ascii) (t : str) :
  Re.BANNED_PHRASES prev t = Re.BANNED_PHRASES prev (leading_word t).
Proof.
  unfold Re.BANNED_PHRASES, Re.at_boundary.
  rewrite word_here_leading, <- alt_sorry_leading, <- alt_apologiz_leading.
  reflexivity.
Qed.

(** A match is a whole word: it starts where no word character comes
    before, and it is the leading word of the text, which has at least
    five characters. *)
Lemma BANNED_PHRASES_match (prev : option ascii) (t : str) (n : nat) :
  Re.BANNED_PHRASES prev t = Some n ->
  n = List.length (leading_word t) /\ 5 <= n /\ Re.word_before prev = false.
Proof.
  rewrite BANNED_PHRASES_leading.
  pose proof (all_word_leading t) as Hw.
  set (w := leading_word t) in *. clearbody w.
  unfold Re.BANNED_PHRASES.
  destruct (Re.at_boundary prev w) eqn:Hb; [|discriminate].
  assert (Hlen : forall m, Some m = Some n -> m = List.length w -> 5 <= m ->
                           n = List.length w /\ 5 <= n /\ Re.word_before prev = false).
  { intros m Hm Hl H5. assert (m = n) by congruence. subst n.
    split; [exact Hl|]. split; [exact H5|].
    unfold Re.at_boundary in Hb.
    destruct w as [|c w]; [simpl in Hl; lia|].
    simpl in Hw, Hb. apply andb_true_iff in Hw. destruct Hw as [Hc _].
    rewrite Hc in Hb. destruct (Re.word_before prev); [discriminate|reflexivity]. }
  destruct (Re.alt_sorry prev w) as [m|] eqn:Es.
  - intros H. apply (Hlen m H).
    + unfold Re.alt_sorry in Es.
      destruct (Re.literal_ci "sorry" prev w) as [[prev' r]|] eqn:E;
        [|discriminate].
      destruct (literal_ci_word _ _ _ _ _ Hw E) as [Hr [Hl Hp]].
      destruct (Re.at_boundary prev' r) eqn:Hb'; [|discriminate].
      inversion Es; subst m.
      unfold Re.at_boundary in Hb'. rewrite Hp in Hb' by (right; discriminate).
      assert (r = []) as ->.
      { apply word_here_false_all; [exact Hr|].
        destruct (Re.word_here r); [discriminate|reflexivity]. }
      simpl in Hl. lia.
    + unfold Re.alt_sorry in Es.
      destruct (Re.literal_ci "sorry" prev w) as [[prev' r]|];
        [|discriminate].
      destruct (Re.at_boundary prev' r); inversion Es; lia.
  - unfold Re.alt_apologiz.
    destruct (Re.literal_ci "apologiz" prev w) as [[prev' r]|] eqn:E;
      [|discriminate].
    destruct (literal_ci_word _ _ _ _ _ Hw E) as [Hr [Hl Hp]].
    rewrite (wstar_takes_word r prev') by (apply Hp; right; discriminate).
    rewrite (leading_word_all r Hr).
    intros H. apply (Hlen _ H); simpl in Hl; lia.
Qed.

(** The pattern does not match where the text does not start a word, nor
    right after a word character. *)
Lemma BANNED_PHRASES_not_word (prev : option ascii) (t : str) :
  Re.word_here t = false -> Re.BANNED_PHRASES prev t = None.
Proof.
  intros H. destruct (Re.BANNED_PHRASES prev t) as [n|] eqn:E; [|reflexivity].
  apply BANNED_PHRASES_match in E. destruct E as [Hn [H5 _]].
  destruct t as [|c t]; simpl in *; [lia|]. rewrite H in Hn. simpl in Hn. lia.
Qed.

Lemma BANNED_PHRASES_inside (prev : option ascii) (t : str) :
  Re.word_before prev = true -> Re.BANNED_PHRASES prev t = None.
Proof.
  intros H. destruct (Re.BANNED_PHRASES prev t) as [n|] eqn:E; [|reflexivity].
  apply BANNED_PHRASES_match in E. destruct E as [_ [_ K]].
  rewrite K in H. discriminate.
Qed.

(** Only whether a word character comes before matters of [prev]. *)
Lemma BANNED_PHRASES_prev (p q : option ascii) (t : str) :
  Re.word_before p = Re.word_before q ->
  Re.BANNED_PHRASES p t = Re.BANNED_PHRASES q t.
Proof.
  intros H. unfold Re.BANNED_PHRASES, Re.at_boundary. rewrite H.
  destruct t as [|c t]; reflexivity.
Qed.

(* ================================================================== *)
(** * The guardrail *)
(* ================================================================== *)

Lemma guard_scan_copy (prev : option ascii) (c : ascii) (t : str) :
  Re.BANNED_PHRASES prev (c :: t) = None ->
  guard_scan prev (c :: t) = c :: guard_scan (Some c) t.
Proof. intros H. unfold guard_scan. simpl. rewrite H. reflexivity. Qed.

(** Where no word starts, what came before does not matter. *)
Lemma guard_scan_prev (p q : option ascii) (t : str) :
  Re.word_here t = false -> guard_scan p t = guard_scan q t.
Proof.
  intros H. destruct t as [|c t]; [reflexivity|].
  rewrite !guard_scan_copy by (apply BANNED_PHRASES_not_word; exact H).
  reflexivity.
Qed.

(** Passing over the leading word. *)
Lemma sub_scan_pending (t : str) :
  forall p q : option ascii,
    Re.sub_scan Re.BANNED_PHRASES "(removed)" p
                (List.length (leading_word t)) t
    = guard_scan q (after_word t).
Proof.
  induction t as [|c t IH]; intros p q; [reflexivity|].
  simpl leading_word. simpl after_word.
  destruct (Py.is_word c) eqn:Hc.
  - simpl. apply IH.
  - change (guard_scan p (c :: t) = guard_scan q (c :: t)).
    apply guard_scan_prev. simpl. exact Hc.
Qed.

Lemma guard_scan_replace (prev q : option ascii) (t : str) (n : nat) :
  Re.BANNED_PHRASES prev t = Some n ->
  guard_scan prev t = ("(removed)" : str) ++ guard_scan q (after_word t).
Proof.
  intros H. destruct (BANNED_PHRASES_match _ _ _ H) as [Hn [H5 _]].
  destruct t as [|c t]; [simpl in Hn; lia|].
  unfold guard_scan at 1. simpl Re.sub_scan. rewrite H.
  destruct n as [|k]; [lia|].
  simpl in Hn. destruct (Py.is_word c) eqn:Hc; [|simpl in Hn; lia].
  simpl in Hn. injection Hn as ->.
  change (("(removed)" : str)
            ++ Re.sub_scan Re.BANNED_PHRASES "(removed)" (Some c)
                 (List.length (leading_word t)) t
          = ("(removed)" : str) ++ guard_scan q (after_word (c :: t))).
  rewrite (sub_scan_pending t (Some c) q). simpl after_word. rewrite Hc.
  reflexivity.
Qed.

(** Inside a word the scan copies up to the end of the word. *)
Lemma leading_word_guard_scan (t : str) :
  forall c : ascii,
    Py.is_word c = true ->
    leading_word (guard_scan (Some c) t) = leading_word t.
Proof.
  induction t as [|d t IH]; intros c Hc; [reflexivity|].
  rewrite guard_scan_copy by (apply BANNED_PHRASES_inside; exact Hc).
  simpl. destruct (Py.is_word d) eqn:Hd; [|reflexivity].
  f_equal. apply IH. exact Hd.
Qed.

(** A character that was copied is copied again. *)
Lemma BANNED_PHRASES_after_copy (prev : option ascii) (c : ascii) (t : str) :
  Re.BANNED_PHRASES prev (c :: guard_scan (Some c) t)
  = Re.BANNED_PHRASES prev (c :: t).
Proof.
  destruct (Py.is_word c) eqn:Hc.
  - rewrite BANNED_PHRASES_leading.
    rewrite (BANNED_PHRASES_leading prev (c :: t)).
    simpl. rewrite Hc. rewrite leading_word_guard_scan by exact Hc.
    reflexivity.
  - rewrite !BANNED_PHRASES_not_word by (simpl; exact Hc). reflexivity.
Qed.

(** The marker itself is copied. *)
Lemma guard_scan_marker (prev : option ascii) (t : str) :
  guard_scan prev (("(removed)" : str) ++ t)
  = ("(removed)" : str) ++ guard_scan (Some ")"%char) t.
Proof.
  change (("(removed)" : str) ++ t)
    with ("("%char :: "r"%char :: "e"%char :: "m"%char :: "o"%char
          :: "v"%char :: "e"%char :: "d"%char :: ")"%char :: t).
  rewrite guard_scan_copy by (apply BANNED_PHRASES_not_word; reflexivity).
  rewrite guard_scan_copy by reflexivity.
  do 6 (rewrite guard_scan_copy by (apply BANNED_PHRASES_inside; reflexivity)).
  rewrite guard_scan_copy by (apply BANNED_PHRASES_not_word; reflexivity).
  reflexivity.
Qed.

Lemma after_word_shorter (c : ascii) (t : str) :
  List.length (after_word t) <= List.length t.
Proof.
  induction t as [|d t IH]; simpl; [lia|].
  destruct (Py.is_word d); simpl; lia.
Qed.

Lemma guard_scan_idempotent (n : nat) :
  forall (t : str) (prev : option ascii),
    List.length t <= n ->
    guard_scan prev (guard_scan prev t) = guard_scan prev t.
Proof.
  induction n as [|n IH]; intros t prev Hlen.
  - destruct t; [reflexivity | simpl in Hlen; lia].
  - destruct t as [|c t]; [reflexivity|].
    simpl in Hlen.
    destruct (Re.BANNED_PHRASES prev (c :: t)) as [k|] eqn:E.
    + rewrite (guard_scan_replace prev (Some ")"%char) _ _ E).
      rewrite guard_scan_marker. f_equal.
      apply IH.
      destruct (BANNED_PHRASES_match _ _ _ E) as [Hk [H5 _]].
      simpl in Hk. simpl. destruct (Py.is_word c); [|simpl in Hk; lia].
      pose proof (after_word_shorter c t). lia.
    + rewrite (guard_scan_copy _ _ _ E).
      rewrite guard_scan_copy by (rewrite BANNED_PHRASES_after_copy; exact E).
      f_equal. apply IH. lia.
Qed.

(** The test for a falsy text changes nothing: the scan of the empty text
    is empty. *)
Lemma guard_output_scan (x : str) : guard_output x = guard_scan None x.
Proof. destruct x; reflexivity. Qed.

(** C8.  The guardrail is idempotent: a second pass finds nothing to
    replace.  It returns the empty text unchanged, and an output that is
    [None] as well. *)
Theorem guard_output_idempotent (x : str) :
  guard_output (guard_output x) = guard_output x
  /\ guard_output [] = []
  /\ guard_final_output None = None.
Proof.
  split; [|split; reflexivity].
  rewrite !guard_output_scan.
  apply (guard_scan_idempotent (List.length x)). lia.
Qed.

(* ================================================================== *)
(** * The gated tools *)
(* ================================================================== *)

(** C3.  [refund] always returns a text: the fixed message that the tool
    is disabled exactly when the context is not premium, and the
    confirmation, in which the name of the context occurs, exactly when
    it is. *)
Theorem refund_gate (CTX : SupportContext) (dummy : str) :
  (refund CTX dummy
   = ("Refund tool disabled: premium membership required." : str)
   <-> is_premium_user CTX = false)
  /\ (refund CTX dummy
      = ("Refund initiated for " : str) ++ name CTX
          ++ (". You will receive confirmation via email." : str)
      <-> is_premium_user CTX = true)
  /\ (is_premium_user CTX = true -> occurs_in (name CTX) (refund CTX dummy)).
Proof.
  unfold refund, refund_is_enabled.
  destruct (is_premium_user CTX); simpl negb; cbv iota.
  - split; [|split].
    + split; [intros H; discriminate H | discriminate].
    + split; reflexivity.
    + intros _. exists ("Refund initiated for " : str),
        (". You will receive confirmation via email." : str). reflexivity.
  - split; [|split].
    + split; reflexivity.
    + split; [intros H; discriminate H | discriminate].
    + discriminate.
Qed.

(** C4.  [restart_service] returns the fixed message that the tool is
    disabled exactly when the issue type of the context is not
    [technical], and the fixed confirmation otherwise.  The gate reads the
    context it is called on: after the issue type is set to [technical]
    the call confirms, after it is cleared the call is refused. *)
Theorem restart_service_gate (CTX : SupportContext) (dummy : str) :
  (restart_service CTX dummy
   = ("Restart tool disabled: this request is not a technical issue." : str)
   <-> issue_type CTX <> Some ("technical" : str))
  /\ (restart_service CTX dummy
      = ("Service restart command sent. Please wait ~2 minutes and try again."
         : str)
      <-> issue_type CTX = Some ("technical" : str))
  /\ restart_service (set_issue_type (Some ("technical" : str)) CTX) dummy
     = ("Service restart command sent. Please wait ~2 minutes and try again."
        : str)
  /\ restart_service (set_issue_type None CTX) dummy
     = ("Restart tool disabled: this request is not a technical issue." : str).
Proof.
  assert (G : restart_service_is_enabled CTX = true
              <-> issue_type CTX = Some ("technical" : str)).
  { unfold restart_service_is_enabled, opt_str_eqb.
    destruct (issue_type CTX) as [s|].
    - rewrite str_eqb_eq. split; [intros ->; reflexivity | congruence].
    - split; discriminate. }
  unfold restart_service.
  split; [|split; [|split; reflexivity]].
  - destruct (restart_service_is_enabled CTX); simpl negb; cbv iota.
    + split; [intros H; discriminate H|].
      intros H. exfalso. apply H. apply G. reflexivity.
    + split; [|reflexivity]. intros _ H. apply G in H. discriminate.
  - destruct (restart_service_is_enabled CTX); simpl negb; cbv iota.
    + split; [intros _; apply G; reflexivity | reflexivity].
    + split; [intros H; discriminate H|].
      intros H. apply G in H. discriminate.
Qed.

(* ================================================================== *)
(** * Routing *)
(* ================================================================== *)

Lemma literal_ci_spec (lit : str) :
  forall (prev : option ascii) (t : str),
    (exists r, Re.literal_ci lit prev t = Some r)
    <-> (exists m post : str, t = m ++ post /\ Py.lower m = lit).
Proof.
  induction lit as [|l lit IH]; intros prev t; simpl.
  - split.
    + intros _. exists [], t. split; reflexivity.
    + intros _. eexists; reflexivity.
  - destruct t as [|c t].
    + split; [intros [r H]; discriminate|].
      intros [m [post [H K]]]. destruct m; discriminate.
    + destruct (Ascii.eqb (Py.lower_char c) l) eqn:E.
      * apply Ascii.eqb_eq in E. rewrite IH. split.
        -- intros [m [post [H K]]]. exists (c :: m), post.
           simpl. rewrite H, K, E. split; reflexivity.
        -- intros [m [post [H K]]]. destruct m as [|d m]; [discriminate|].
           simpl in H, K. inversion H; inversion K; subst.
           exists m, post. split; reflexivity.
      * split; [intros [r H]; discriminate|].
        intros [m [post [H K]]]. destruct m as [|d m]; [discriminate|].
        simpl in H, K. inversion H; inversion K; subst.
        rewrite Ascii.eqb_refl in E. discriminate.
Qed.

Lemma alts_ci_here_spec (alts : list str) (prev : option ascii) (t : str) :
  Re.alts_ci_here alts prev t = true
  <-> (exists m post : str, t = m ++ post /\ In (Py.lower m) alts).
Proof.
  unfold Re.alts_ci_here. rewrite existsb_exists. split.
  - intros [lit [Hin H]].
    destruct (Re.literal_ci lit prev t) as [r|] eqn:E; [|discriminate].
    destruct (proj1 (literal_ci_spec lit prev t) (ex_intro _ r E))
      as [m [post [Ht Hm]]].
    exists m, post. subst lit. split; assumption.
  - intros [m [post [Ht Hin]]]. exists (Py.lower m). split; [exact Hin|].
    destruct (proj2 (literal_ci_spec (Py.lower m) prev t)) as [r E].
    + exists m, post. split; [exact Ht | reflexivity].
    + rewrite E. reflexivity.
Qed.

Lemma search_from_spec (alts : list str) (t : str) :
  forall prev : option ascii,
    Re.search_from alts prev t = true <-> matches_ci alts t.
Proof.
  unfold matches_ci. induction t as [|c t IH]; intros prev.
  - simpl. rewrite orb_false_r, alts_ci_here_spec. split.
    + intros [m [post [H K]]]. exists [], m, post. split; assumption.
    + intros [pre [m [post [H K]]]]. destruct pre; [|discriminate].
      exists m, post. split; assumption.
  - change (Re.search_from alts prev (c :: t))
      with (Re.alts_ci_here alts prev (c :: t)
            || Re.search_from alts (Some c) t).
    rewrite orb_true_iff, alts_ci_here_spec, IH. split.
    + intros [[m [post [H K]]] | [pre [m [post [H K]]]]].
      * exists [], m, post. split; assumption.
      * exists (c :: pre), m, post. simpl. rewrite H. split; [reflexivity|exact K].
    + intros [pre [m [post [H K]]]]. destruct pre as [|d pre].
      * left. exists m, post. split; assumption.
      * right. simpl in H. inversion H; subst.
        exists pre, m, post. split; [reflexivity | exact K].
Qed.

Lemma search_alts_ci_spec (alts : list str) (t : str) :
  Re.search_alts_ci alts t = true <-> matches_ci alts t.
Proof. apply search_from_spec. Qed.

Lemma search_alts_ci_false (alts : list str) (t : str) :
  Re.search_alts_ci alts t = false <-> ~ matches_ci alts t.
Proof.
  rewrite <- search_alts_ci_spec.
  destruct (Re.search_alts_ci alts t); split; intros H;
    try reflexivity; try discriminate; try (intros K; discriminate).
  exfalso; apply H; reflexivity.
Qed.

(** C5.  The ROUTE step.  For the billing label the billing agent is run
    on the hint [refund] when the text matches one of [refund],
    [chargeback], [money back] whatever the case of its letters, and on
    [invoice] when it does not; for the technical label the technical
    agent is run on [restart] when the text matches one of [restart],
    [crash], [down], [error], and on [status] when it does not; for the
    general label the general agent is run on the text itself. *)
Theorem route_hint (user_text : str) :
  let refund_words : list str :=
    ["refund" : str; "chargeback" : str; "money back" : str] in
  let restart_words : list str :=
    ["restart" : str; "crash" : str; "down" : str; "error" : str] in
  (route "billing" user_text = (billing_agent, ("refund" : str))
   <-> matches_ci refund_words user_text)
  /\ (route "billing" user_text = (billing_agent, ("invoice" : str))
      <-> ~ matches_ci refund_words user_text)
  /\ (route "technical" user_text = (technical_agent, ("restart" : str))
      <-> matches_ci restart_words user_text)
  /\ (route "technical" user_text = (technical_agent, ("status" : str))
      <-> ~ matches_ci restart_words user_text)
  /\ route "general" user_text = (general_agent, user_text).
Proof.
  intros refund_words restart_words.
  change (route "billing" user_text)
    with (billing_agent,
          if Re.search_alts_ci refund_words user_text
          then ("refund" : str) else ("invoice" : str)).
  change (route "technical" user_text)
    with (technical_agent,
          if Re.search_alts_ci restart_words user_text
          then ("restart" : str) else ("status" : str)).
  split; [|split; [|split; [|split; [|reflexivity]]]].
  - destruct (Re.search_alts_ci refund_words user_text) eqn:E.
    + apply search_alts_ci_spec in E. tauto.
    + apply search_alts_ci_false in E. split; [discriminate | tauto].
  - destruct (Re.search_alts_ci refund_words user_text) eqn:E.
    + apply search_alts_ci_spec in E. split; [discriminate | tauto].
    + apply search_alts_ci_false in E. tauto.
  - destruct (Re.search_alts_ci restart_words user_text) eqn:E.
    + apply search_alts_ci_spec in E. tauto.
    + apply search_alts_ci_false in E. split; [discriminate | tauto].
  - destruct (Re.search_alts_ci restart_words user_text) eqn:E.
    + apply search_alts_ci_spec in E. split; [discriminate | tauto].
    + apply search_alts_ci_false in E. tauto.
Qed.

(* ================================================================== *)
(** * What the guardrail removes *)
(* ================================================================== *)

Lemma literal_ci_split (lit : str) :
  forall (prev prev' : option ascii) (t r : str),
    Re.literal_ci lit prev t = Some (prev', r) ->
    exists m : str, t = m ++ r /\ Py.lower m = lit.
Proof.
  induction lit as [|l lit IH]; intros prev prev' t r H; simpl in H.
  - inversion H; subst. exists []. split; reflexivity.
  - destruct t as [|c t]; [discriminate|].
    destruct (Ascii.eqb (Py.lower_char c) l) eqn:E; [|discriminate].
    apply Ascii.eqb_eq in E.
    destruct (IH _ _ _ _ H) as [m [Ht Hm]].
    exists (c :: m). simpl. rewrite Ht, Hm, E. split; reflexivity.
Qed.

Lemma literal_ci_prefix (lit : str) (prev : option ascii) (t : str) :
  Py.startswith lit (Py.lower t) = true ->
  exists r, Re.literal_ci lit prev t = Some r.
Proof.
  intros H. apply startswith_spec in H. destruct H as [post H].
  apply map_eq_app in H. destruct H as [m [post' [Ht [Hm _]]]].
  apply literal_ci_spec. exists m, post'. split; assumption.
Qed.

(** On a word, the pattern matches exactly the pattern words. *)
Lemma BANNED_PHRASES_word (prev : option ascii) (w : str) :
  all_word w = true ->
  Re.BANNED_PHRASES prev w
  = if negb (Re.word_before prev) && pattern_word w
    then Some (List.length w) else None.
Proof.
  intros Hw.
  destruct (Re.BANNED_PHRASES prev w) as [n|] eqn:E.
  - destruct (BANNED_PHRASES_match _ _ _ E) as [Hn [H5 Hp]].
    rewrite (leading_word_all w Hw) in Hn. subst n. rewrite Hp. simpl negb.
    assert (pattern_word w = true) as ->; [|reflexivity].
    unfold Re.BANNED_PHRASES in E.
    destruct (Re.at_boundary prev w); [|discriminate].
    unfold pattern_word. apply orb_true_iff.
    destruct (Re.alt_sorry prev w) as [k|] eqn:Es.
    + left. unfold Re.alt_sorry in Es.
      destruct (Re.literal_ci "sorry" prev w) as [[prev' r]|] eqn:El;
        [|discriminate].
      destruct (literal_ci_word _ _ _ _ _ Hw El) as [Hr [Hl Hq]].
      destruct (Re.at_boundary prev' r) eqn:Hb; [|discriminate].
      unfold Re.at_boundary in Hb. rewrite Hq in Hb by (right; discriminate).
      assert (r = []) as ->.
      { apply word_here_false_all; [exact Hr|].
        destruct (Re.word_here r); [discriminate|reflexivity]. }
      destruct (literal_ci_split _ _ _ _ _ El) as [m [Ht Hm]].
      rewrite app_nil_r in Ht. subst m. rewrite Hm. apply str_eqb_refl.
    + right. unfold Re.alt_apologiz in E.
      destruct (Re.literal_ci "apologiz" prev w) as [[prev' r]|] eqn:El;
        [|discriminate].
      destruct (literal_ci_split _ _ _ _ _ El) as [m [Ht Hm]].
      apply startswith_spec. exists (Py.lower r).
      rewrite Ht. unfold Py.lower in *. rewrite map_app, Hm. reflexivity.
  - destruct (Re.word_before prev) eqn:Hp; [reflexivity|]. simpl negb.
    destruct (pattern_word w) eqn:Hpw; [|reflexivity]. exfalso.
    unfold pattern_word in Hpw. apply orb_true_iff in Hpw.
    assert (Hne : Re.word_here w = true).
    { destruct w as [|c w]; [destruct Hpw; discriminate|].
      simpl in Hw. apply andb_true_iff in Hw. simpl. tauto. }
    unfold Re.BANNED_PHRASES, Re.at_boundary in E. rewrite Hp, Hne in E.
    simpl xorb in E. cbv iota in E.
    destruct Hpw as [Hs | Ha].
    + apply str_eqb_eq in Hs.
      destruct (literal_ci_prefix "sorry" prev w) as [[prev' r] El].
      { rewrite Hs. reflexivity. }
      destruct (literal_ci_word _ _ _ _ _ Hw El) as [Hr [Hl Hq]].
      assert (r = []) as ->.
      { assert (K : List.length (Py.lower w) = 5) by (rewrite Hs; reflexivity).
        unfold Py.lower in K. rewrite length_map in K.
        destruct r; [reflexivity | simpl in Hl; lia]. }
      unfold Re.alt_sorry in E. rewrite El in E.
      unfold Re.at_boundary in E. rewrite Hq in E by (right; discriminate).
      simpl in E. discriminate.
    + destruct (literal_ci_prefix "apologiz" prev w Ha) as [[prev' r] El].
      destruct (literal_ci_word _ _ _ _ _ Hw El) as [Hr [Hl Hq]].
      destruct (Re.alt_sorry prev w); [discriminate|].
      unfold Re.alt_apologiz in E. rewrite El in E.
      rewrite (wstar_takes_word r prev') in E by (apply Hq; right; discriminate).
      discriminate.
Qed.

(** The pattern at any position: it matches when no word character comes
    before and the word that starts there is a pattern word, and then it
    takes that whole word. *)
Lemma BANNED_PHRASES_closed (prev : option ascii) (t : str) :
  Re.BANNED_PHRASES prev t
  = if negb (Re.word_before prev) && pattern_word (leading_word t)
    then Some (List.length (leading_word t)) else None.
Proof.
  rewrite BANNED_PHRASES_leading.
  apply BANNED_PHRASES_word. apply all_word_leading.
Qed.

Lemma after_word_app (w t : str) :
  all_word w = true -> Re.word_here t = false -> after_word (w ++ t) = t.
Proof.
  induction w as [|c w IH]; simpl; intros Hw Ht.
  - destruct t as [|d t]; simpl in *; [reflexivity | rewrite Ht; reflexivity].
  - apply andb_true_iff in Hw. destruct Hw as [Hc Hw].
    rewrite Hc. exact (IH Hw Ht).
Qed.

(** The words of a text are its leading word, when there is one, and the
    words of what follows. *)
Lemma words_from_leading (t : str) :
  forall cur : str,
    words_from cur t
    = match rev cur ++ leading_word t with
      | [] => words (after_word t)
      | w => w :: words (after_word t)
      end.
Proof.
  unfold words. induction t as [|c t IH]; intros cur.
  - simpl. rewrite app_nil_r. destruct cur as [|a cur]; [reflexivity|].
    destruct (rev (a :: cur)) eqn:E; [|reflexivity].
    apply (f_equal (@List.length ascii)) in E. rewrite length_rev in E.
    discriminate.
  - simpl. destruct (Py.is_word c) eqn:Hc.
    + rewrite IH. simpl rev. rewrite <- app_assoc. reflexivity.
    + rewrite app_nil_r. simpl. rewrite Hc.
      destruct cur as [|a cur]; [reflexivity|].
      destruct (rev (a :: cur)) eqn:E; [|reflexivity].
      apply (f_equal (@List.length ascii)) in E. rewrite length_rev in E.
      discriminate.
Qed.

Lemma words_leading (t : str) :
  words t
  = match leading_word t with
    | [] => words (after_word t)
    | w => w :: words (after_word t)
    end.
Proof. unfold words at 1. rewrite words_from_leading. reflexivity. Qed.

Lemma words_skip (c : ascii) (t : str) :
  Py.is_word c = false -> words (c :: t) = words t.
Proof. intros H. unfold words. simpl. rewrite H. reflexivity. Qed.

Lemma word_here_guard_scan (q : option ascii) (t : str) :
  Re.word_here t = false -> Re.word_here (guard_scan q t) = false.
Proof.
  intros H. destruct t as [|d t]; [reflexivity|].
  rewrite guard_scan_copy by (apply BANNED_PHRASES_not_word; exact H).
  exact H.
Qed.

(** A word that is not replaced is copied whole. *)
Lemma guard_scan_word (t : str) :
  forall (c : ascii) (q : option ascii),
    Py.is_word c = true ->
    guard_scan (Some c) t = leading_word t ++ guard_scan q (after_word t).
Proof.
  induction t as [|d t IH]; intros c q Hc; [reflexivity|].
  simpl leading_word. simpl after_word.
  destruct (Py.is_word d) eqn:Hd.
  - rewrite guard_scan_copy by (apply BANNED_PHRASES_inside; exact Hc).
    rewrite (IH d q Hd). reflexivity.
  - apply guard_scan_prev. simpl. exact Hd.
Qed.

Lemma guard_scan_clean (n : nat) :
  forall (t : str) (prev : option ascii),
    List.length t <= n ->
    Re.word_before prev = false ->
    existsb pattern_word (words (guard_scan prev t)) = false.
Proof.
  induction n as [|n IH]; intros t prev Hlen Hp.
  - destruct t; [reflexivity | simpl in Hlen; lia].
  - destruct t as [|c t]; [reflexivity|].
    simpl in Hlen.
    destruct (Py.is_word c) eqn:Hc.
    + pose proof (BANNED_PHRASES_closed prev (c :: t)) as Hcl.
      rewrite Hp in Hcl. cbn [negb andb] in Hcl.
      assert (Hafter : List.length (after_word (c :: t)) <= n).
      { simpl. rewrite Hc. pose proof (after_word_shorter c t). lia. }
      destruct (pattern_word (leading_word (c :: t))) eqn:Hpw.
      * rewrite (guard_scan_replace prev (Some ")"%char) _ _ Hcl).
        change (words (("(removed)" : str)
                         ++ guard_scan (Some ")"%char) (after_word (c :: t))))
          with (words_from (rev ("removed" : str))
                  (")"%char
                   :: guard_scan (Some ")"%char) (after_word (c :: t)))).
        rewrite words_from_leading. rewrite rev_involutive.
        simpl leading_word. simpl after_word.
        change (("removed" : str) ++ [])
          with ("r"%char :: ("emoved" : str)).
        cbv iota. rewrite words_skip by reflexivity.
        simpl existsb.
        apply (IH _ _ Hafter). reflexivity.
      * rewrite (guard_scan_copy _ _ _ Hcl).
        rewrite (guard_scan_word t c (Some ")"%char) Hc).
        change (c :: leading_word t
                  ++ guard_scan (Some ")"%char) (after_word t))
          with ((c :: leading_word t)
                  ++ guard_scan (Some ")"%char) (after_word t)).
        assert (Hl : c :: leading_word t = leading_word (c :: t))
          by (simpl; rewrite Hc; reflexivity).
        assert (Ha : after_word t = after_word (c :: t))
          by (simpl; rewrite Hc; reflexivity).
        rewrite Hl, Ha.
        rewrite words_leading.
        rewrite leading_word_app, after_word_app;
          try apply all_word_leading;
          try (apply word_here_guard_scan; apply word_here_after).
        rewrite <- Hl at 1. cbv iota. rewrite Hl.
        cbn [existsb]. rewrite Hpw. cbn [orb].
        apply (IH _ _ Hafter). reflexivity.
    + rewrite guard_scan_copy by (apply BANNED_PHRASES_not_word; exact Hc).
      rewrite words_skip by exact Hc.
      apply IH; [lia | simpl; exact Hc].
Qed.

(** What the guardrail does achieve: in its output no word is [sorry] or
    begins with [apologiz], whatever the case of the letters. *)
Theorem guard_output_removes_pattern_words (x : str) :
  existsb pattern_word (words (guard_output x)) = false.
Proof.
  rewrite guard_output_scan.
  apply (guard_scan_clean (List.length x)); [lia | reflexivity].
Qed.

(** C2.  The guardrail does not remove every word that begins with
    [apolog]: the pattern asks for [apologiz], so a text such as
    [My apologies for the delay] comes back as it was, still holding the
    word [apologies]; [apology] and [apologetic] pass as well, while
    [sorry] and [apologize] are replaced. *)
Theorem guard_output_keeps_apologies :
  guard_output "My apologies for the delay"
  = ("My apologies for the delay" : str)
  /\ has_apology_word (guard_output "My apologies for the delay") = true
  /\ guard_output "apology" = ("apology" : str)
  /\ guard_output "Apologetic" = ("Apologetic" : str)
  /\ guard_output "Sorry, I apologize" = ("(removed), I (removed)" : str).
Proof. repeat split; vm_compute; reflexivity. Qed.

(* ================================================================== *)
(** * The turn and the loop *)
(* ================================================================== *)

Lemma triage_label_spec (final_output : option str) :
  let raw := Py.lower (Py.strip (or_str final_output "")) in
  In (triage_label final_output) labels
  /\ (In raw labels -> triage_label final_output = raw)
  /\ (~ In raw labels -> triage_label final_output = ("general" : str)).
Proof.
  intros raw. unfold triage_label. fold raw. fold labels.
  destruct (Py.mem raw labels) eqn:E; simpl negb; cbv iota.
  - apply mem_spec in E. tauto.
  - assert (~ In raw labels).
    { intros H. apply mem_spec in H. congruence. }
    split; [right; right; left; reflexivity | tauto].
Qed.

Section Session.

Variable Backend : Type.
Variable Runner_run :
  Backend -> Agent -> str -> SupportContext -> option str * Backend.

(** What [triage] does, written out. *)
Lemma triage_run (user_text : str) (w : World Backend) :
  let triage_out := Runner_run (backend w) triage_agent user_text (CTX w) in
  let label := triage_label (guard_final_output (fst triage_out)) in
  triage Runner_run user_text w
  = (label,
     {| CTX := set_last_agent (Some ("triage" : str))
                 (set_issue_type (Some label) (CTX w));
        backend := snd triage_out |},
     [Runner_called triage_agent user_text (CTX w); Print_handoff label]).
Proof.
  unfold triage, run_with_context, call_Runner, update_CTX, emit,
    bind, ret.
  destruct (Runner_run (backend w) triage_agent user_text (CTX w))
    as [out b]. reflexivity.
Qed.

(** What a whole turn does, written out. *)
Lemma turn_run (user_text : str) (w : World Backend) :
  let triage_out := Runner_run (backend w) triage_agent user_text (CTX w) in
  let label := triage_label (guard_final_output (fst triage_out)) in
  let ctx1 := set_last_agent (Some ("triage" : str))
                (set_issue_type (Some label) (CTX w)) in
  let step := route label user_text in
  let answer := Runner_run (snd triage_out) (fst step) (snd step) ctx1 in
  turn Runner_run user_text w
  = (tt,
     {| CTX := set_issue_type None (set_last_agent (Some label) ctx1);
        backend := snd answer |},
     [Runner_called triage_agent user_text (CTX w); Print_handoff label;
      Runner_called (fst step) (snd step) ctx1;
      Print_answer (Some label) (guard_final_output (fst answer))]).
Proof.
  intros triage_out label ctx1 step answer.
  unfold turn, bind. rewrite triage_run.
  fold triage_out. fold label. fold ctx1.
  unfold handoff, run_with_context, call_Runner, output, loop_status,
    read_CTX, update_CTX, emit, bind, ret.
  fold step. destruct step as [agent text] eqn:Es. simpl CTX. simpl backend.
  subst answer. simpl fst. simpl snd.
  destruct (Runner_run (snd triage_out) agent text ctx1) as [out b].
  reflexivity.
Qed.

(** C7.  The CLASSIFY step.  Whatever the triage run returns, the label
    taken from it is one of the three: it is the stripped, lower-cased
    output when that is a label and [general] when it is not.  [triage]
    always ends, writing the label to the issue type of the context and
    [triage] to its last agent, and the agent that answers in the same
    turn is given a context whose issue type is that label. *)
Theorem triage_coerces (user_text : str) (w : World Backend) :
  let final_output :=
    guard_final_output
      (fst (Runner_run (backend w) triage_agent user_text (CTX w))) in
  let raw := Py.lower (Py.strip (or_str final_output "")) in
  let label := value_of (triage Runner_run user_text w) in
  let w1 := world_of (triage Runner_run user_text w) in
  (In raw labels -> label = raw)
  /\ (~ In raw labels -> label = ("general" : str))
  /\ In label labels
  /\ issue_type (CTX w1) = Some label
  /\ last_agent (CTX w1) = Some ("triage" : str)
  /\ (exists final_output2 : option str,
        events_of (turn Runner_run user_text w)
        = [Runner_called triage_agent user_text (CTX w);
           Print_handoff label;
           Runner_called (fst (route label user_text))
             (snd (route label user_text)) (CTX w1);
           Print_answer (Some label) final_output2]).
Proof.
  intros final_output raw label w1.
  subst label w1. rewrite turn_run, triage_run.
  unfold value_of, world_of, events_of. simpl fst. simpl snd. simpl CTX.
  fold final_output.
  destruct (triage_label_spec final_output) as [Hin [Hraw Hgen]].
  fold raw in Hraw, Hgen.
  repeat split; auto.
  eexists. reflexivity.
Qed.

Lemma world_of_triple {A W : Type} (a : A) (w : W) (ev : list Event) :
  world_of (a, w, ev) = w.
Proof. reflexivity. Qed.

Lemma iteration_run (line : str) (w : World Backend) :
  iteration Runner_run line w
  = if is_exit (Py.strip line)
    then (true, w, [Prompt "You: "; Print_goodbye])
    else (false, world_of (turn Runner_run (Py.strip line) w),
          Prompt "You: " :: events_of (turn Runner_run (Py.strip line) w)).
Proof.
  unfold iteration, bind, emit, ret.
  destruct (is_exit (Py.strip line)); [reflexivity|].
  destruct (turn Runner_run (Py.strip line) w) as [[u w1] ev].
  unfold world_of, events_of. simpl. rewrite app_nil_r. reflexivity.
Qed.

Lemma session_loop_run (line : str) (stdin : list str) (w : World Backend) :
  session_loop Runner_run (line :: stdin) w
  = if is_exit (Py.strip line)
    then (Finished, w, [Prompt "You: "; Print_goodbye])
    else
      let r := turn Runner_run (Py.strip line) w in
      let s := session_loop Runner_run stdin (world_of r) in
      (value_of s, world_of s,
       Prompt "You: " :: events_of r ++ events_of s).
Proof.
  simpl session_loop. unfold bind at 1. rewrite iteration_run.
  destruct (is_exit (Py.strip line)); [reflexivity|].
  cbv zeta.
  destruct (session_loop Runner_run stdin
              (world_of (turn Runner_run (Py.strip line) w)))
    as [[o w2] ev2].
  reflexivity.
Qed.

Lemma turn_clears_issue_type (user_text : str) (w : World Backend) :
  issue_type (CTX (world_of (turn Runner_run user_text w))) = None.
Proof. rewrite turn_run. reflexivity. Qed.

(** Between the iterations of the loop the issue type is unset: when the
    loop ends, either no turn was made or the last one cleared it. *)
Lemma session_loop_issue_type (stdin : list str) :
  forall w : World Backend,
    world_of (session_loop Runner_run stdin w) = w
    \/ issue_type (CTX (world_of (session_loop Runner_run stdin w))) = None.
Proof.
  induction stdin as [|line stdin IH]; intros w.
  - left. reflexivity.
  - rewrite session_loop_run.
    destruct (is_exit (Py.strip line)); [left; reflexivity|].
    cbv zeta. rewrite world_of_triple. right.
    destruct (IH (world_of (turn Runner_run (Py.strip line) w))) as [H | H].
    + rewrite H. apply turn_clears_issue_type.
    + exact H.
Qed.

(** C6.  When a turn is over, the issue type of the context is unset and
    its last agent is the label the turn was handled under: the one
    [triage] wrote, the handoff line showed, routing used and the answer
    was printed with. *)
Theorem turn_resets_context (user_text : str) (stdin : list str)
    (w : World Backend) :
  let label := value_of (triage Runner_run user_text w) in
  let w' := world_of (turn Runner_run user_text w) in
  let after_loop := world_of (session_loop Runner_run stdin w) in
  issue_type (CTX w') = None
  /\ last_agent (CTX w') = Some label
  /\ In label labels
  /\ (after_loop = w \/ issue_type (CTX after_loop) = None)
  /\ (exists (ctx1 : SupportContext) (final_output : option str),
        issue_type ctx1 = Some label
        /\ events_of (turn Runner_run user_text w)
           = [Runner_called triage_agent user_text (CTX w);
              Print_handoff label;
              Runner_called (fst (route label user_text))
                (snd (route label user_text)) ctx1;
              Print_answer (Some label) final_output]).
Proof.
  intros label w' after_loop.
  split; [|split; [|split; [|split]]].
  - apply turn_clears_issue_type.
  - subst label w'. rewrite turn_run, triage_run. reflexivity.
  - subst label. rewrite triage_run. apply triage_label_spec.
  - apply session_loop_issue_type.
  - subst label. rewrite turn_run, triage_run.
    unfold value_of, events_of. simpl fst. simpl snd.
    eexists. eexists. split; [|reflexivity]. reflexivity.
Qed.

Lemma is_exit_spec (user_text : str) :
  is_exit user_text = true
  <-> Py.lower user_text = ("exit" : str) \/ Py.lower user_text = ("quit" : str).
Proof.
  unfold is_exit. rewrite mem_spec. simpl. intuition congruence.
Qed.

(** C10.  The loop is left on a line exactly when the line, stripped and
    lower-cased, is [exit] or [quit].  On such a line only the farewell is
    printed: the world is unchanged and the agent runtime is not called.
    On any other line a turn is run on the stripped line, which calls the
    runtime, and the loop goes on with the rest of the input; [exit now] and [please quit] are
    such lines. *)
Theorem loop_exit (line : str) (stdin : list str) (w : World Backend) :
  (value_of (iteration Runner_run line w) = true
   <-> Py.lower (Py.strip line) = ("exit" : str)
       \/ Py.lower (Py.strip line) = ("quit" : str))
  /\ (session_loop Runner_run (line :: stdin) w
      = (Finished, w, [Prompt "You: "; Print_goodbye])
      <-> Py.lower (Py.strip line) = ("exit" : str)
          \/ Py.lower (Py.strip line) = ("quit" : str))
  /\ (value_of (iteration Runner_run line w) = false ->
      session_loop Runner_run (line :: stdin) w
      = let r := turn Runner_run (Py.strip line) w in
        let s := session_loop Runner_run stdin (world_of r) in
        (value_of s, world_of s,
         Prompt "You: " :: events_of r ++ events_of s))
  /\ existsb is_Runner_called (events_of (iteration Runner_run line w))
     = negb (value_of (iteration Runner_run line w))
  /\ value_of (iteration Runner_run "exit now" w) = false
  /\ value_of (iteration Runner_run "please quit" w) = false
  /\ value_of (iteration Runner_run "  Exit " w) = true.
Proof.
  rewrite <- is_exit_spec.
  rewrite session_loop_run, !iteration_run.
  split; [|split; [|split; [|split; [|repeat split]]]].
  - destruct (is_exit (Py.strip line)); unfold value_of; simpl;
      split; congruence.
  - destruct (is_exit (Py.strip line)); [split; reflexivity|].
    split; [|discriminate].
    rewrite turn_run. unfold events_of. cbv zeta. simpl.
    intros H. inversion H.
  - destruct (is_exit (Py.strip line)); unfold value_of; simpl;
      [discriminate | reflexivity].
  - destruct (is_exit (Py.strip line)); [reflexivity|].
    rewrite turn_run. reflexivity.
Qed.

Lemma turn_frame (user_text : str) (w : World Backend) :
  let w' := world_of (turn Runner_run user_text w) in
  name (CTX w') = name (CTX w)
  /\ is_premium_user (CTX w') = is_premium_user (CTX w)
  /\ extra (CTX w') = extra (CTX w).
Proof.
  cbv zeta. rewrite turn_run. unfold world_of. simpl. auto.
Qed.

Lemma session_loop_frame (stdin : list str) :
  forall w : World Backend,
    let w' := world_of (session_loop Runner_run stdin w) in
    name (CTX w') = name (CTX w)
    /\ is_premium_user (CTX w') = is_premium_user (CTX w)
    /\ extra (CTX w') = extra (CTX w).
Proof.
  induction stdin as [|line stdin IH]; intros w; cbv zeta.
  - unfold world_of. simpl. auto.
  - rewrite session_loop_run.
    destruct (is_exit (Py.strip line)).
    + unfold world_of. simpl. auto.
    + cbv zeta. rewrite !world_of_triple.
      destruct (IH (world_of (turn Runner_run (Py.strip line) w)))
        as [H1 [H2 H3]].
      destruct (turn_frame (Py.strip line) w) as [K1 [K2 K3]].
      cbv zeta in *.
      rewrite H1, H2, H3, K1, K2, K3. auto.
Qed.

(** C9.  A turn writes only the issue type and the last agent of the
    context: its name, its premium flag and its extra bag are after the
    turn what they were before it, and so they are after the whole loop,
    however many turns it makes.  The program sets the name and the
    premium flag once, from the first two lines of the input, before the
    loop starts, and leaves the extra bag as it found it. *)
Theorem context_frame (user_text line1 line2 : str) (stdin : list str)
    (w : World Backend) :
  let after_turn := CTX (world_of (turn Runner_run user_text w)) in
  let after_loop := CTX (world_of (session_loop Runner_run stdin w)) in
  let after_main :=
    CTX (world_of (main Runner_run (line1 :: line2 :: stdin) w)) in
  (name after_turn = name (CTX w)
   /\ is_premium_user after_turn = is_premium_user (CTX w)
   /\ extra after_turn = extra (CTX w))
  /\ (name after_loop = name (CTX w)
      /\ is_premium_user after_loop = is_premium_user (CTX w)
      /\ extra after_loop = extra (CTX w))
  /\ (name after_main = or_str (Some (Py.strip line1)) "Guest"
      /\ is_premium_user after_main
         = Py.startswith "y" (Py.lower (Py.strip line2))
      /\ extra after_main = extra (CTX w)).
Proof.
  cbv zeta. split; [apply turn_frame | split; [apply session_loop_frame|]].
  unfold main, bind, emit, update_CTX.
  set (w0 := {| CTX := set_is_premium_user
                         (Py.startswith "y" (Py.lower (Py.strip line2)))
                         (set_name (or_str (Some (Py.strip line1)) "Guest")
                            (CTX w));
                backend := backend w |}).
  destruct (session_loop_frame stdin w0) as [H1 [H2 H3]].
  cbv zeta in *.
  change (session_loop Runner_run stdin
            {| CTX := set_is_premium_user
                        (Py.startswith "y" (Py.lower (Py.strip line2)))
                        (CTX {| CTX := set_name
                                         (or_str (Some (Py.strip line1)) "Guest")
                                         (CTX w);
                                backend := backend w |});
               backend := backend {| CTX := set_name
                                              (or_str (Some (Py.strip line1))
                                                 "Guest") (CTX w);
                                     backend := backend w |} |})
    with (session_loop Runner_run stdin w0).
  destruct (session_loop Runner_run stdin w0) as [[o w2] ev].
  unfold world_of in *. simpl in *. auto.
Qed.

End Session.

(* ================================================================== *)
(** * The invoice *)
(* ================================================================== *)

(** X1.  The invoice text tells the name and the plan apart: two calls of
    [get_invoice] return the same text exactly when the contexts have the
    same name and the same premium flag, whatever else they hold and
    whatever the argument is. *)
Theorem get_invoice_injective (c1 c2 : SupportContext) (d1 d2 : str) :
  get_invoice c1 d1 = get_invoice c2 d2
  <-> name c1 = name c2 /\ is_premium_user c1 = is_premium_user c2.
Proof.
  unfold get_invoice. split.
  - intros H. apply app_inv_head in H.
    destruct (is_premium_user c1), (is_premium_user c2).
    + apply app_inv_tail in H. auto.
    + apply (f_equal (@rev ascii)) in H. rewrite !rev_app_distr in H.
      simpl in H. discriminate H.
    + apply (f_equal (@rev ascii)) in H. rewrite !rev_app_distr in H.
      simpl in H. discriminate H.
    + apply app_inv_tail in H. auto.
  - intros [-> ->]. reflexivity.
Qed.

(* ================================================================== *)
(** * Fixed points of the guardrail *)
(* ================================================================== *)

Lemma guard_scan_fixed (n : nat) :
  forall (t : str) (prev : option ascii),
    List.length t <= n ->
    Re.word_before prev = false ->
    existsb pattern_word (words t) = false ->
    guard_scan prev t = t.
Proof.
  induction n as [|n IH]; intros t prev Hlen Hp Hw.
  - destruct t; [reflexivity | simpl in Hlen; lia].
  - destruct t as [|c t]; [reflexivity|].
    simpl in Hlen.
    destruct (Py.is_word c) eqn:Hc.
    + rewrite words_leading in Hw.
      assert (Hl : leading_word (c :: t) = c :: leading_word t)
        by (simpl; rewrite Hc; reflexivity).
      assert (Ha : after_word (c :: t) = after_word t)
        by (simpl; rewrite Hc; reflexivity).
      rewrite Hl, Ha in Hw. cbn [existsb] in Hw.
      apply orb_false_iff in Hw. destruct Hw as [Hpw Hrest].
      pose proof (BANNED_PHRASES_closed prev (c :: t)) as Hcl.
      rewrite Hl, Hpw, andb_false_r in Hcl.
      rewrite (guard_scan_copy _ _ _ Hcl).
      rewrite (guard_scan_word t c (Some ")"%char) Hc).
      rewrite (IH (after_word t) (Some ")"%char)); [| | reflexivity | exact Hrest].
      * rewrite <- leading_after. reflexivity.
      * pose proof (after_word_shorter c t). lia.
    + rewrite guard_scan_copy by (apply BANNED_PHRASES_not_word; exact Hc).
      rewrite words_skip in Hw by exact Hc.
      rewrite IH; [reflexivity | lia | simpl; exact Hc | exact Hw].
Qed.

Lemma guard_scan_nonempty (prev : option ascii) (c : ascii) (t : str) :
  guard_scan prev (c :: t) <> [].
Proof.
  unfold guard_scan. simpl.
  destruct (Re.BANNED_PHRASES prev (c :: t)) as [[|k]|]; discriminate.
Qed.

Lemma guard_output_fixed_iff (x : str) :
  guard_output x = x <-> existsb pattern_word (words x) = false.
Proof.
  split.
  - intros H. rewrite <- H. apply guard_output_removes_pattern_words.
  - intros H. rewrite guard_output_scan.
    apply (guard_scan_fixed (List.length x)); [lia | reflexivity | exact H].
Qed.

Lemma guard_output_empty_iff (x : str) : guard_output x = [] <-> x = [].
Proof.
  split.
  - rewrite guard_output_scan. destruct x as [|c x]; [reflexivity|].
    intros H. exfalso. exact (guard_scan_nonempty _ _ _ H).
  - intros ->. reflexivity.
Qed.


(* ================================================================== *)
(** * Stripping and lower-casing *)
(* ================================================================== *)

Lemma isspace_not_word (c : ascii) :
  Py.isspace c = true -> Py.is_word c = false.
Proof. each_char c; discriminate. Qed.

Lemma lower_char_idempotent (c : ascii) :
  Py.lower_char (Py.lower_char c) = Py.lower_char c.
Proof. each_char c. Qed.

Lemma isspace_lower_char (c : ascii) :
  Py.isspace (Py.lower_char c) = Py.isspace c.
Proof. each_char c. Qed.

Lemma lower_idempotent (t : str) : Py.lower (Py.lower t) = Py.lower t.
Proof.
  unfold Py.lower. rewrite map_map. apply map_ext.
  exact lower_char_idempotent.
Qed.

(** [lstrip] takes a run of whitespace off the front. *)
Lemma lstrip_split (s : str) :
  exists ws : str, s = ws ++ Py.lstrip s /\ forallb Py.isspace ws = true.
Proof.
  induction s as [|c s [ws [H K]]]; simpl.
  - exists []. split; reflexivity.
  - destruct (Py.isspace c) eqn:E.
    + exists (c :: ws). simpl. rewrite E, K, <- H. split; reflexivity.
    + exists []. split; reflexivity.
Qed.

Lemma lstrip_head (s : str) :
  match Py.lstrip s with
  | c :: _ => Py.isspace c = false
  | [] => True
  end.
Proof.
  induction s as [|c s IH]; simpl; [exact I|].
  destruct (Py.isspace c) eqn:E; [exact IH | exact E].
Qed.

Lemma lstrip_spaces (ws t : str) :
  forallb Py.isspace ws = true -> Py.lstrip (ws ++ t) = Py.lstrip t.
Proof.
  induction ws as [|c ws IH]; simpl; [reflexivity|].
  intros H. apply andb_true_iff in H. destruct H as [Hc Hws].
  rewrite Hc. exact (IH Hws).
Qed.

Lemma lstrip_all_spaces (ws : str) :
  forallb Py.isspace ws = true -> Py.lstrip ws = [].
Proof.
  intros H. rewrite <- (app_nil_r ws). rewrite lstrip_spaces by exact H.
  reflexivity.
Qed.

Lemma lstrip_keeps (s : str) :
  match s with
  | c :: _ => Py.isspace c = false
  | [] => True
  end ->
  Py.lstrip s = s.
Proof. destruct s as [|c s]; simpl; [reflexivity|]. intros ->. reflexivity. Qed.

(** [rstrip] takes a run of whitespace off the end. *)
Lemma rstrip_split (s : str) :
  exists ws : str, s = Py.rstrip s ++ ws /\ forallb Py.isspace ws = true.
Proof.
  unfold Py.rstrip. destruct (lstrip_split (rev s)) as [ws [H K]].
  exists (rev ws). split.
  - rewrite <- rev_app_distr, <- H, rev_involutive. reflexivity.
  - rewrite forallb_forall in *. intros c Hc. apply K.
    apply in_rev. exact Hc.
Qed.

Lemma rstrip_spaces (t ws : str) :
  forallb Py.isspace ws = true -> Py.rstrip (t ++ ws) = Py.rstrip t.
Proof.
  intros H. unfold Py.rstrip. rewrite rev_app_distr, lstrip_spaces;
    [reflexivity|].
  rewrite forallb_forall in *. intros c Hc. apply H. apply in_rev.
  exact Hc.
Qed.

Lemma lstrip_app (t ws : str) :
  forallb Py.isspace ws = true ->
  Py.lstrip (t ++ ws)
  = match Py.lstrip t with [] => [] | _ :: _ => Py.lstrip t ++ ws end.
Proof.
  intros H. induction t as [|c t IH]; simpl.
  - apply lstrip_all_spaces. exact H.
  - destruct (Py.isspace c); [exact IH | reflexivity].
Qed.

(** Whitespace around a text does not show after [strip]. *)
Lemma strip_spaces (ws1 t ws2 : str) :
  forallb Py.isspace ws1 = true ->
  forallb Py.isspace ws2 = true ->
  Py.strip (ws1 ++ t ++ ws2) = Py.strip t.
Proof.
  intros H1 H2. unfold Py.strip.
  rewrite lstrip_spaces by exact H1. rewrite lstrip_app by exact H2.
  destruct (Py.lstrip t) as [|c u]; [reflexivity|].
  apply rstrip_spaces. exact H2.
Qed.

(** A character that is no whitespace is in the stripped text when it is
    in the text. *)
Lemma In_strip (c : ascii) (s : str) :
  Py.isspace c = false -> In c s -> In c (Py.strip s).
Proof.
  intros Hc Hin. unfold Py.strip.
  assert (notin : forall ws, forallb Py.isspace ws = true -> ~ In c ws).
  { intros ws H K. rewrite forallb_forall in H. rewrite (H c K) in Hc.
    discriminate. }
  destruct (lstrip_split s) as [ws1 [H1 K1]].
  rewrite H1 in Hin. apply in_app_or in Hin.
  destruct Hin as [Hin | Hin]; [destruct (notin ws1 K1 Hin)|].
  destruct (rstrip_split (Py.lstrip s)) as [ws2 [H2 K2]].
  rewrite H2 in Hin. apply in_app_or in Hin.
  destruct Hin as [Hin | Hin]; [exact Hin | destruct (notin ws2 K2 Hin)].
Qed.

(* ================================================================== *)
(** * Words under stripping and lower-casing *)
(* ================================================================== *)

Lemma words_from_lower (t : str) :
  forall cur : str,
    words_from (Py.lower cur) (Py.lower t)
    = map Py.lower (words_from cur t).
Proof.
  unfold Py.lower.
  induction t as [|c t IH]; intros cur; simpl.
  - destruct cur as [|a cur]; [reflexivity|].
    simpl. rewrite map_app, map_rev. reflexivity.
  - rewrite is_word_lower_char. destruct (Py.is_word c).
    + apply (IH (c :: cur)).
    + pose proof (IH []) as E. simpl in E.
      destruct cur as [|a cur]; [exact E|].
      simpl. rewrite E, map_app, map_rev. reflexivity.
Qed.

Lemma words_lower (t : str) : words (Py.lower t) = map Py.lower (words t).
Proof. apply (words_from_lower t []). Qed.

Lemma pattern_word_lower (w : str) :
  pattern_word (Py.lower w) = pattern_word w.
Proof. unfold pattern_word. rewrite lower_idempotent. reflexivity. Qed.

Lemma words_from_spaces (ws : str) :
  forallb Py.isspace ws = true ->
  forall cur : str, words_from cur ws = words_from cur [].
Proof.
  induction ws as [|c ws IH]; intros H cur; [reflexivity|].
  simpl in H. apply andb_true_iff in H. destruct H as [Hc Hws].
  simpl. rewrite (isspace_not_word c Hc). rewrite (IH Hws []).
  destruct cur; reflexivity.
Qed.

Lemma words_from_app_spaces (t ws : str) :
  forallb Py.isspace ws = true ->
  forall cur : str, words_from cur (t ++ ws) = words_from cur t.
Proof.
  intros H. induction t as [|c t IH]; intros cur.
  - apply words_from_spaces. exact H.
  - simpl. destruct (Py.is_word c); [apply IH|].
    rewrite (IH []). reflexivity.
Qed.

Lemma words_spaces_app (ws t : str) :
  forallb Py.isspace ws = true -> words (ws ++ t) = words t.
Proof.
  induction ws as [|c ws IH]; intros H; [reflexivity|].
  simpl in H. apply andb_true_iff in H. destruct H as [Hc Hws].
  simpl app. rewrite words_skip by (apply isspace_not_word; exact Hc).
  exact (IH Hws).
Qed.

(** Stripping a text keeps its words. *)
Lemma words_strip (t : str) : words (Py.strip t) = words t.
Proof.
  unfold Py.strip.
  destruct (lstrip_split t) as [ws1 [H1 K1]].
  destruct (rstrip_split (Py.lstrip t)) as [ws2 [H2 K2]].
  rewrite H1 at 2. rewrite words_spaces_app by exact K1.
  rewrite H2 at 2. unfold words.
  rewrite words_from_app_spaces by exact K2. reflexivity.
Qed.

Lemma existsb_pattern_word_lower (l : list str) :
  existsb pattern_word (map Py.lower l) = existsb pattern_word l.
Proof.
  induction l as [|w l IH]; simpl; [reflexivity|].
  rewrite pattern_word_lower, IH. reflexivity.
Qed.

(* ================================================================== *)
(** * The guardrail and the triage label *)
(* ================================================================== *)

(** Where the guardrail changes a text it leaves a bracket. *)
Lemma guard_scan_bracket (t : str) :
  forall prev : option ascii,
    guard_scan prev t = t \/ In "("%char (guard_scan prev t).
Proof.
  induction t as [|c t IH]; intros prev; [left; reflexivity|].
  destruct (Re.BANNED_PHRASES prev (c :: t)) as [n|] eqn:E.
  - right. rewrite (guard_scan_replace prev None _ _ E). left. reflexivity.
  - rewrite (guard_scan_copy _ _ _ E).
    destruct (IH (Some c)) as [H | H].
    + left. rewrite H. reflexivity.
    + right. right. exact H.
Qed.

Lemma label_no_bracket (s : str) :
  In "("%char s -> ~ In (Py.lower (Py.strip s)) labels.
Proof.
  intros Hin Hl.
  assert (K : In "("%char (Py.lower (Py.strip s))).
  { unfold Py.lower.
    change "("%char with (Py.lower_char "("%char).
    apply in_map. apply In_strip; [reflexivity | exact Hin]. }
  unfold labels in Hl. simpl in Hl.
  destruct Hl as [Hl | [Hl | [Hl | []]]]; rewrite <- Hl in K; simpl in K;
    repeat (destruct K as [K | K]; [discriminate K|]); exact K.
Qed.

Lemma label_no_pattern_word (s : str) :
  existsb pattern_word (words s) = true ->
  ~ In (Py.lower (Py.strip s)) labels.
Proof.
  intros Hw Hl.
  assert (K : existsb pattern_word (words (Py.lower (Py.strip s))) = true).
  { rewrite words_lower, existsb_pattern_word_lower, words_strip. exact Hw. }
  unfold labels in Hl. simpl in Hl.
  destruct Hl as [Hl | [Hl | [Hl | []]]]; rewrite <- Hl in K;
    vm_compute in K; discriminate K.
Qed.

Lemma or_str_nonempty (s : str) : s <> [] -> or_str (Some s) "" = s.
Proof. destruct s; [congruence | reflexivity]. Qed.

(** X3.  The guardrail does not change how the output of the triage run
    is read: the label taken from the guarded output is the label that
    would be taken from the output itself. *)
Theorem triage_label_guard (final_output : option str) :
  triage_label (guard_final_output final_output) = triage_label final_output.
Proof.
  destruct final_output as [s|]; [|reflexivity]. simpl guard_final_output.
  destruct (existsb pattern_word (words s)) eqn:Hw.
  - assert (Hs : s <> []) by (intros ->; discriminate Hw).
    assert (Hg : guard_output s <> [])
      by (intros H; apply Hs; apply guard_output_empty_iff; exact H).
    assert (Hch : In "("%char (guard_output s)).
    { rewrite guard_output_scan.
      destruct (guard_scan_bracket s None) as [H | H]; [|exact H].
      rewrite <- guard_output_scan in H.
      apply guard_output_fixed_iff in H. congruence. }
    destruct (triage_label_spec (Some s)) as [_ [_ H1]].
    destruct (triage_label_spec (Some (guard_output s))) as [_ [_ H2]].
    cbv zeta in H1, H2.
    rewrite or_str_nonempty in H1 by exact Hs.
    rewrite or_str_nonempty in H2 by exact Hg.
    rewrite H1 by (apply label_no_pattern_word; exact Hw).
    rewrite H2 by (apply label_no_bracket; exact Hch).
    reflexivity.
  - apply guard_output_fixed_iff in Hw. rewrite Hw. reflexivity.
Qed.

(* ================================================================== *)
(** * The classifier and the hints *)
(* ================================================================== *)

Lemma occurs_in_lower_app (w pre t post : str) :
  occurs_in w (Py.lower t) -> occurs_in w (Py.lower (pre ++ t ++ post)).
Proof.
  intros [a [b H]]. unfold Py.lower in *. rewrite !map_app, H.
  exists (map Py.lower_char pre ++ a), (b ++ map Py.lower_char post).
  rewrite <- !app_assoc. reflexivity.
Qed.

Lemma mentions_lower_app (ws : list str) (pre t post : str) :
  mentions ws (Py.lower t) -> mentions ws (Py.lower (pre ++ t ++ post)).
Proof.
  intros [w [Hin H]]. exists w. split; [exact Hin|].
  apply occurs_in_lower_app. exact H.
Qed.

(** The class of a text by the words its lower-cased form mentions. *)
Lemma classify_issue_mentions (t : str) :
  let billing_words : list str :=
    ["refund" : str; "invoice" : str; "bill" : str; "payment" : str] in
  let technical_words : list str :=
    ["error" : str; "crash" : str; "down" : str; "restart" : str;
     "bug" : str; "technical" : str] in
  (classify_issue t = ("billing" : str)
   <-> mentions billing_words (Py.lower t))
  /\ (classify_issue t = ("technical" : str)
      <-> ~ mentions billing_words (Py.lower t)
          /\ mentions technical_words (Py.lower t))
  /\ (classify_issue t = ("general" : str)
      <-> ~ mentions billing_words (Py.lower t)
          /\ ~ mentions technical_words (Py.lower t)).
Proof.
  intros billing_words technical_words.
  rewrite <- !any_in_false, <- !any_in_spec.
  unfold classify_issue. fold billing_words. fold technical_words.
  destruct (Py.any_in billing_words (Py.lower t));
    [| destruct (Py.any_in technical_words (Py.lower t))];
    repeat split; try discriminate; try tauto;
      intros [H K]; discriminate.
Qed.

(** X4.  Text around a text can only move its class up: what is billing
    stays billing inside any longer text, and a part of a general text is
    general.  The case of the letters plays no part. *)
Theorem classify_issue_context (pre t post : str) :
  (classify_issue t = ("billing" : str)
   -> classify_issue (pre ++ t ++ post) = ("billing" : str))
  /\ (classify_issue (pre ++ t ++ post) = ("general" : str)
      -> classify_issue t = ("general" : str))
  /\ (classify_issue t = ("technical" : str)
      -> classify_issue (pre ++ t ++ post) <> ("general" : str))
  /\ classify_issue (Py.lower t) = classify_issue t.
Proof.
  destruct (classify_issue_mentions t) as [Hb [Ht Hg]].
  destruct (classify_issue_mentions (pre ++ t ++ post)) as [Hb' [Ht' Hg']].
  cbv zeta in *.
  split; [|split; [|split]].
  - intros H. apply Hb'. apply mentions_lower_app. apply Hb. exact H.
  - intros H. apply Hg. apply Hg' in H. destruct H as [H1 H2].
    split; intros K; [apply H1 | apply H2]; apply mentions_lower_app; exact K.
  - intros H K. apply Hg' in K. destruct K as [_ K2]. apply K2.
    apply mentions_lower_app. apply Ht. exact H.
  - unfold classify_issue. rewrite lower_idempotent. reflexivity.
Qed.

Lemma matches_ci_lower (alts : list str) (t : str) :
  matches_ci alts t <-> mentions alts (Py.lower t).
Proof.
  unfold matches_ci, mentions, occurs_in, Py.lower. split.
  - intros [pre [m [post [H K]]]]. exists (map Py.lower_char m).
    split; [exact K|]. subst t. rewrite !map_app.
    eexists. eexists. reflexivity.
  - intros [w [Hin [pre [post H]]]].
    apply map_eq_app in H. destruct H as [a [b [Ht [Ha Hb]]]].
    apply map_eq_app in Hb. destruct Hb as [m [c [Hb [Hm Hc]]]].
    exists a, m, c. subst. split; [reflexivity | exact Hin].
Qed.


Lemma mentions_cons (w : str) (ws : list str) (t : str) :
  mentions (w :: ws) t <-> occurs_in w t \/ mentions ws t.
Proof.
  unfold mentions. split.
  - intros [x [[<- | Hin] H]]; [left; exact H | right; exists x; auto].
  - intros [H | [x [Hin H]]]; [exists w | exists x]; simpl; auto.
Qed.

Lemma mentions_nil (t : str) : ~ mentions [] t.
Proof. intros [x [[] _]]. Qed.

(** X6.  Routing on the label the classifier gives.  A technical text gets
    the hint [status] only when it is technical by the words [bug] or
    [technical]; a billing text gets the hint [invoice] only when it is
    billing by the words [invoice], [bill] or [payment]; a general text is
    passed on as it is. *)
Theorem route_on_classifier (t : str) :
  (classify_issue t = ("technical" : str)
   -> snd (route (classify_issue t) t) = ("status" : str)
   -> mentions ["bug" : str; "technical" : str] (Py.lower t))
  /\ (classify_issue t = ("billing" : str)
      -> snd (route (classify_issue t) t) = ("invoice" : str)
      -> mentions ["invoice" : str; "bill" : str; "payment" : str]
           (Py.lower t))
  /\ (classify_issue t = ("general" : str)
      -> route (classify_issue t) t = (general_agent, t)).
Proof.
  destruct (classify_issue_mentions t) as [Hb [Ht _]]. cbv zeta in *.
  split; [|split].
  - intros H K. rewrite H in K.
    assert (Hr : ~ matches_ci ["restart" : str; "crash" : str; "down" : str;
                               "error" : str] t).
    { apply search_alts_ci_false. revert K.
      change (route "technical" t)
        with (technical_agent,
              if Re.search_alts_ci
                   ["restart" : str; "crash" : str; "down" : str;
                    "error" : str] t
              then ("restart" : str) else ("status" : str)).
      simpl snd.
      destruct (Re.search_alts_ci _ t); [discriminate | reflexivity]. }
    rewrite matches_ci_lower in Hr.
    apply Ht in H. destruct H as [_ H].
    rewrite !mentions_cons in *. intuition.
  - intros H K. rewrite H in K.
    assert (Hr : ~ matches_ci ["refund" : str; "chargeback" : str;
                               "money back" : str] t).
    { apply search_alts_ci_false. revert K.
      change (route "billing" t)
        with (billing_agent,
              if Re.search_alts_ci
                   ["refund" : str; "chargeback" : str; "money back" : str] t
              then ("refund" : str) else ("invoice" : str)).
      simpl snd.
      destruct (Re.search_alts_ci _ t); [discriminate | reflexivity]. }
    rewrite matches_ci_lower in Hr.
    apply Hb in H.
    rewrite !mentions_cons in *. intuition.
  - intros ->. reflexivity.
Qed.

(* ================================================================== *)
(** * Running an agent, the console and the input *)
(* ================================================================== *)

Lemma strip_idempotent (s : str) : Py.strip (Py.strip s) = Py.strip s.
Proof.
  unfold Py.strip.
  assert (Hl : Py.lstrip (Py.rstrip (Py.lstrip s)) = Py.rstrip (Py.lstrip s)).
  { apply lstrip_keeps.
    destruct (rstrip_split (Py.lstrip s)) as [ws [H K]].
    pose proof (lstrip_head s) as Hh.
    destruct (Py.rstrip (Py.lstrip s)) as [|c u]; [exact I|].
    rewrite H in Hh. exact Hh. }
  rewrite Hl. unfold Py.rstrip at 1 2. rewrite rev_involutive.
  rewrite (lstrip_keeps (Py.lstrip (rev (Py.lstrip s)))) by apply lstrip_head.
  reflexivity.
Qed.

Lemma strip_head (s : str) :
  match Py.strip s, Py.lstrip s with
  | c :: _, d :: _ => c = d
  | [], [] => True
  | _, _ => False
  end.
Proof.
  unfold Py.strip.
  destruct (rstrip_split (Py.lstrip s)) as [ws [H K]].
  pose proof (lstrip_head s) as Hh.
  destruct (Py.lstrip s) as [|d u] eqn:E; [reflexivity|].
  destruct (Py.rstrip (d :: u)) as [|c v].
  - simpl in H. subst ws. simpl in K. rewrite Hh in K. discriminate.
  - simpl in H. congruence.
Qed.

Lemma lower_char_y (c : ascii) :
  Ascii.eqb (Py.lower_char c) "y"
  = (Ascii.eqb c "y" || Ascii.eqb c "Y").
Proof. each_char c. Qed.

Lemma events_of_triple {A W : Type} (a : A) (w : W) (ev : list Event) :
  events_of (a, w, ev) = ev.
Proof. reflexivity. Qed.

Section Console.

Variable Backend : Type.
Variable Runner_run :
  Backend -> Agent -> str -> SupportContext -> option str * Backend.

(** X7.  Whatever the agent runtime returns, [run_with_context] hands its
    caller an output in which no word is [sorry] or begins with
    [apologiz], leaves the context as it was, and calls the runtime once,
    on the context as it is at the call. *)
Theorem run_with_context_guarded (agent : Agent) (text : str)
    (w : World Backend) :
  let r := run_with_context Runner_run agent text w in
  match value_of r with
  | Some s => existsb pattern_word (words s) = false
  | None => True
  end
  /\ guard_final_output (value_of r) = value_of r
  /\ CTX (world_of r) = CTX w
  /\ events_of r = [Runner_called agent text (CTX w)].
Proof.
  cbv zeta. unfold run_with_context, call_Runner, bind, ret.
  destruct (Runner_run (backend w) agent text (CTX w)) as [[s|] b];
    unfold value_of, world_of, events_of; simpl.
  - split; [apply guard_output_removes_pattern_words|].
    split; [|split; reflexivity].
    f_equal. rewrite !guard_output_scan.
    apply (guard_scan_idempotent (List.length s)). lia.
  - repeat split.
Qed.

Lemma clean_answer (l : str) (out : option str) :
  Py.mem l labels = true ->
  clean_event (Print_answer (Some l) (guard_final_output out)) = true.
Proof.
  intros H. destruct out as [s|]; cbn [clean_event guard_final_output].
  - rewrite H, guard_output_removes_pattern_words. reflexivity.
  - exact H.
Qed.

Lemma turn_events_clean (user_text : str) (w : World Backend) :
  forallb clean_event (events_of (turn Runner_run user_text w)) = true.
Proof.
  rewrite turn_run. unfold events_of. cbv zeta. simpl snd.
  set (label := triage_label _).
  assert (Hl : Py.mem label labels = true).
  { apply mem_spec. apply triage_label_spec. }
  cbn [forallb]. rewrite (clean_answer _ _ Hl).
  cbn [clean_event]. rewrite Hl. reflexivity.
Qed.

Lemma session_loop_events_clean (stdin : list str) :
  forall w : World Backend,
    forallb clean_event (events_of (session_loop Runner_run stdin w)) = true.
Proof.
  induction stdin as [|line stdin IH]; intros w; [reflexivity|].
  rewrite session_loop_run.
  destruct (is_exit (Py.strip line)); [reflexivity|].
  cbv zeta. rewrite events_of_triple. cbn [forallb clean_event].
  rewrite forallb_app, turn_events_clean, IH. reflexivity.
Qed.

(** X8.  Nothing that the program writes to the console holds a pattern
    word in an answer: every answer printed, in any run of the program on
    any input and with any agent runtime, has passed the guardrail, and
    every handoff line and answer line is printed under one of the three
    labels. *)
Theorem console_clean (stdin : list str) (w : World Backend) :
  forallb clean_event (events_of (session_loop Runner_run stdin w)) = true
  /\ forallb clean_event (events_of (main Runner_run stdin w)) = true.
Proof.
  split; [apply session_loop_events_clean|].
  destruct stdin as [|line1 [|line2 stdin]]; [reflexivity | reflexivity|].
  unfold main, bind, emit, update_CTX.
  match goal with
  | |- context [session_loop Runner_run stdin ?w0] =>
    pose proof (session_loop_events_clean stdin w0) as H;
    destruct (session_loop Runner_run stdin w0) as [[o w2] ev]
  end.
  unfold events_of in *. simpl in *. exact H.
Qed.

(** X9.  Whitespace around a line of input does not show: the iteration
    of the loop on a line with whitespace before and after it is the
    iteration on the line itself. *)
Theorem iteration_ignores_spaces (ws1 line ws2 : str) (w : World Backend) :
  forallb Py.isspace ws1 = true ->
  forallb Py.isspace ws2 = true ->
  iteration Runner_run (ws1 ++ line ++ ws2) w = iteration Runner_run line w.
Proof.
  intros H1 H2. rewrite !iteration_run.
  rewrite (strip_spaces ws1 line ws2 H1 H2). reflexivity.
Qed.

Lemma session_loop_until_exit (stdin : list str) :
  forall w : World Backend,
    session_loop Runner_run stdin w
    = session_loop Runner_run (until_exit stdin) w.
Proof.
  induction stdin as [|line stdin IH]; intros w; [reflexivity|].
  simpl until_exit. destruct (is_exit (Py.strip line)) eqn:E.
  - rewrite !session_loop_run, E. reflexivity.
  - rewrite !session_loop_run, E. cbv zeta. rewrite IH. reflexivity.
Qed.

Lemma session_loop_outcome (stdin : list str) :
  forall w : World Backend,
    value_of (session_loop Runner_run stdin w)
    = if existsb (fun line => is_exit (Py.strip line)) stdin
      then Finished else EOFError.
Proof.
  induction stdin as [|line stdin IH]; intros w; [reflexivity|].
  rewrite session_loop_run. simpl existsb.
  destruct (is_exit (Py.strip line)); [reflexivity|].
  cbv zeta. unfold value_of at 1. simpl fst. apply IH.
Qed.

(** X10.  The loop ends with [break] exactly when some line of the input
    passes the exit test, and with the error of [input] at the end of the
    input otherwise; the lines after the first line that passes the test
    are not read. *)
Theorem session_loop_reads_until_exit (stdin : list str) (w : World Backend) :
  value_of (session_loop Runner_run stdin w)
  = (if existsb (fun line => is_exit (Py.strip line)) stdin
     then Finished else EOFError)
  /\ session_loop Runner_run stdin w
     = session_loop Runner_run (until_exit stdin) w.
Proof.
  split; [apply session_loop_outcome | apply session_loop_until_exit].
Qed.

Lemma turn_Runner_calls (user_text : str) (w : World Backend) :
  List.length (filter is_Runner_called
                 (events_of (turn Runner_run user_text w))) = 2.
Proof. rewrite turn_run. reflexivity. Qed.

(** X11.  The agent runtime is called twice for every line read before
    the first line that passes the exit test, and not otherwise; and the
    prompt for a line is written once more than there are such lines. *)
Theorem session_loop_Runner_calls (stdin : list str) (w : World Backend) :
  List.length (filter is_Runner_called
                 (events_of (session_loop Runner_run stdin w)))
  = 2 * turns_before_exit stdin
  /\ List.length (filter is_Prompt
                    (events_of (session_loop Runner_run stdin w)))
     = S (turns_before_exit stdin).
Proof.
  revert w. induction stdin as [|line stdin IH]; intros w;
    [split; reflexivity|].
  rewrite session_loop_run. simpl turns_before_exit.
  destruct (is_exit (Py.strip line)); [split; reflexivity|].
  cbv zeta. rewrite !events_of_triple.
  destruct (IH (world_of (turn Runner_run (Py.strip line) w))) as [H1 H2].
  split.
  - cbn [filter is_Runner_called].
    rewrite filter_app, length_app, turn_Runner_calls, H1. lia.
  - cbn [filter is_Prompt]. cbn [List.length].
    rewrite filter_app, length_app, H2. rewrite turn_run. simpl. lia.
Qed.

(** X12.  Between turns the restart tool is off: on the context a turn
    leaves behind, [restart_service] answers that it is disabled.  During
    the turn, on the context [triage] has written, it confirms exactly
    when the label is [technical]. *)
Theorem restart_between_turns (user_text dummy : str) (w : World Backend) :
  restart_service (CTX (world_of (turn Runner_run user_text w))) dummy
  = ("Restart tool disabled: this request is not a technical issue." : str)
  /\ (restart_service (CTX (world_of (triage Runner_run user_text w))) dummy
      = ("Service restart command sent. Please wait ~2 minutes and try again."
         : str)
      <-> value_of (triage Runner_run user_text w) = ("technical" : str)).
Proof.
  split.
  - unfold restart_service, restart_service_is_enabled.
    rewrite turn_clears_issue_type. reflexivity.
  - rewrite triage_run. unfold world_of, value_of. simpl fst. simpl snd.
    simpl CTX. set (label := triage_label _).
    unfold restart_service, restart_service_is_enabled. simpl issue_type.
    unfold opt_str_eqb.
    destruct (Py.str_eqb label "technical") eqn:E; simpl negb; cbv iota.
    + apply str_eqb_eq in E. split; [intros _; exact E | reflexivity].
    + split; [intros H; discriminate H|].
      intros H. rewrite H in E. discriminate E.
Qed.

Lemma main_context (line1 line2 : str) (stdin : list str)
    (w : World Backend) :
  let after_main :=
    CTX (world_of (main Runner_run (line1 :: line2 :: stdin) w)) in
  name after_main = or_str (Some (Py.strip line1)) "Guest"
  /\ is_premium_user after_main
     = Py.startswith "y" (Py.lower (Py.strip line2)).
Proof.
  cbv zeta. unfold main, bind, emit, update_CTX.
  match goal with
  | |- context [session_loop Runner_run stdin ?w0] =>
    destruct (session_loop_frame Backend Runner_run stdin w0) as [H1 [H2 _]];
    destruct (session_loop Runner_run stdin w0) as [[o w2] ev]
  end.
  unfold world_of in *. simpl in *. auto.
Qed.

(** X13.  The start of the program.  When the input ends before both
    answers are read the program stops with the error of [input] and the
    context is untouched, also when a name was read.  Otherwise the name
    in the context is not empty and has no whitespace at its ends, and the
    premium flag is set exactly when the first character of the second
    answer that is no whitespace is [y] or [Y]. *)
Theorem main_start (line1 line2 : str) (stdin : list str)
    (w : World Backend) :
  let after_main :=
    CTX (world_of (main Runner_run (line1 :: line2 :: stdin) w)) in
  (value_of (main Runner_run [] w) = EOFError
   /\ world_of (main Runner_run [] w) = w)
  /\ (value_of (main Runner_run [line1] w) = EOFError
      /\ world_of (main Runner_run [line1] w) = w)
  /\ name after_main <> []
  /\ Py.strip (name after_main) = name after_main
  /\ is_premium_user after_main
     = match Py.lstrip line2 with
       | c :: _ => Ascii.eqb c "y" || Ascii.eqb c "Y"
       | [] => false
       end.
Proof.
  cbv zeta.
  destruct (main_context line1 line2 stdin w) as [Hn Hp].
  cbv zeta in Hn, Hp. rewrite Hn, Hp.
  split; [split; reflexivity|]. split; [split; reflexivity|].
  split; [|split].
  - simpl or_str. destruct (Py.strip line1); discriminate.
  - simpl or_str. destruct (Py.strip line1) eqn:E; [reflexivity|].
    simpl Py.truthy. cbv iota. rewrite <- E. apply strip_idempotent.
  - pose proof (strip_head line2) as H.
    destruct (Py.strip line2) as [|c u], (Py.lstrip line2) as [|d v];
      try contradiction; [reflexivity|].
    subst d. simpl. rewrite andb_true_r. apply lower_char_y.
Qed.

End Console.

(** The loop on a line with blanks around the word [exit]. *)
Lemma iteration_ignores_spaces_witness :
  forallb Py.isspace (" " : str) = true
  /\ forallb Py.isspace ("  " : str) = true
  /\ iteration (fun (_ : unit) (_ : Agent) (_ : str) (_ : SupportContext)
                => (None, tt))
       ((" " : str) ++ ("exit" : str) ++ ("  " : str))
       (mkWorld SupportContext_default tt)
     = iteration (fun (_ : unit) (_ : Agent) (_ : str) (_ : SupportContext)
                  => (None, tt))
         ("exit" : str) (mkWorld SupportContext_default tt).
Proof.
  split; [reflexivity|]. split; [reflexivity|].
  apply (iteration_ignores_spaces unit _ " " "exit" "  "
           (mkWorld SupportContext_default tt)); reflexivity.
Defined.

(* ================================================================== *)
(** * The tools and the triage answer under the guardrail *)
(* ================================================================== *)





Lemma lstrip_lower (s : str) :
  Py.lstrip (Py.lower s) = Py.lower (Py.lstrip s).
Proof.
  unfold Py.lower. induction s as [|c s IH]; [reflexivity|].
  simpl. rewrite isspace_lower_char. destruct (Py.isspace c);
    [exact IH | reflexivity].
Qed.

Lemma strip_lower (s : str) : Py.strip (Py.lower s) = Py.lower (Py.strip s).
Proof.
  unfold Py.strip, Py.rstrip. rewrite lstrip_lower.
  unfold Py.lower at 1. rewrite <- map_rev.
  change (map Py.lower_char (rev (Py.lstrip s)))
    with (Py.lower (rev (Py.lstrip s))).
  rewrite lstrip_lower. unfold Py.lower. rewrite map_rev. reflexivity.
Qed.

Lemma or_str_empty (s : str) : or_str (Some s) "" = s.
Proof. destruct s; reflexivity. Qed.

(** X15.  How the answer of the triage run is read does not depend on
    whitespace around it nor on the case of its letters; no answer, the
    empty answer and an answer of whitespace only are read as
    [general]. *)
Theorem triage_label_tolerant (ws1 s ws2 : str) :
  forallb Py.isspace ws1 = true ->
  forallb Py.isspace ws2 = true ->
  triage_label (Some (ws1 ++ s ++ ws2)) = triage_label (Some s)
  /\ triage_label (Some (Py.lower s)) = triage_label (Some s)
  /\ triage_label (Some (ws1 ++ ws2)) = ("general" : str)
  /\ triage_label None = ("general" : str).
Proof.
  intros H1 H2. unfold triage_label. rewrite !or_str_empty.
  split; [|split; [|split]].
  - rewrite (strip_spaces ws1 s ws2 H1 H2). reflexivity.
  - rewrite strip_lower, lower_idempotent. reflexivity.
  - pose proof (strip_spaces ws1 [] ws2 H1 H2) as E. simpl in E.
    rewrite E. reflexivity.
  - reflexivity.
Qed.

(** The answer [Billing] with a blank before it and a line end after
    it. *)
Lemma triage_label_tolerant_witness :
  forallb Py.isspace (" " : str) = true
  /\ forallb Py.isspace [ascii_of_nat 10] = true
  /\ triage_label (Some ((" " : str) ++ ("Billing" : str) ++ [ascii_of_nat 10]))
     = ("billing" : str).
Proof.
  split; [reflexivity|]. split; [reflexivity|].
  rewrite (proj1 (triage_label_tolerant " " "Billing" [ascii_of_nat 10]
                    eq_refl eq_refl)).
  reflexivity.
Defined.
